(** * Verification of unshared_vk/spy.py

    The module finds the groups of a VKontakte user that few or none of the
    user's friends belong to.  It has two halves:

    - two VKScript programs, [GET_MAIN_USER_INFO_REQUEST_CODE] and
      [CHECK_SPECIAL_GROUP_REQUEST_CODE], which the service runs on its side
      (method execute);
    - the Python functions [do_execute_request] (one request with bounded
      retry) and [find_unshared_groups] (the driver), with [simple_progress]
      as the default progress callback.

    Both halves are embedded below.  Python code runs in a state-and-exception
    monad over a [world] that records every observable effect (requests posted,
    sleeps, the two output streams, the values handed to the progress
    callback, files written) and carries the [platform], which settles what
    the code leaves to its surroundings: whether time.sleep takes a delay and
    whether the output file can be written.  The VKScript programs are embedded as functions
    over a [vk_api] stub, with fuel for their while loops.  The main program
    of the module is embedded up to its call of [find_unshared_groups], over
    the parsed arguments and the lines of stdin. *)

From Stdlib Require Import ZArith List String Ascii Bool Lia DecimalString Floats.
Import ListNotations.
Open Scope Z_scope.

(** ** Text of the two scripts *)

(** Python's [str] of an int, as [str.format] interpolates it. *)
Definition str_int (z : Z) : string := NilZero.string_of_int (Z.to_int z).

(** The double-quote character. *)
Definition dq : string := String "034"%char EmptyString.

Section Templates.
Local Open Scope string_scope.

(** [GET_MAIN_USER_INFO_REQUEST_CODE.format(user_id=, group_step=,
    friend_step=)]: the template with its three fields interpolated as they
    are, and the doubled braces of the template rendered as single ones. *)
Definition GET_MAIN_USER_INFO_REQUEST_CODE (user_id : string) (group_step friend_step : Z) : string :=
  "
    var user_id = "
  ++ dq
  ++ user_id
  ++ dq
  ++ ";
    var group_step = "
  ++ str_int group_step
  ++ ";
    var friend_step = "
  ++ str_int friend_step
  ++ ";
    
    var user = API.users.get({user_ids: user_id});
    var uid = user[0].id;
    
    var groups = API.groups.get({user_id: uid, count: group_step});
    
    var i = group_step;
    var count = groups.count;
    
    while(i < count)
    {
      groups.items = groups.items
        + API.groups.get({user_id:uid, count: group_step, offset: i})
          .items;
      i = i + group_step;
    }
    
    var friends = API.friends.get({user_id:uid, count: friend_step});
    
    i = friend_step;
    count = friends.count;
    
    while(i < count)
    {
      friends.items = friends.items
        + API.friends.get({user_id:uid, count: friend_step, offset: i})
          .items;
      i = i + friend_step;
    }
    
    return {user: user, groups: groups, friends: friends};
".

(** [CHECK_SPECIAL_GROUP_REQUEST_CODE.format(user_id=, group_id=,
    members_threshold=, friend_load_step=, friend_is_member_step=)]. *)
Definition CHECK_SPECIAL_GROUP_REQUEST_CODE (user_id : string) (group_id members_threshold friend_load_step friend_is_member_step : Z) : string :=
  "
    var user_id = "
  ++ dq
  ++ user_id
  ++ dq
  ++ ";
    var group_id = "
  ++ dq
  ++ str_int group_id
  ++ dq
  ++ ";
    var members_threshold = "
  ++ str_int members_threshold
  ++ ";
    var friend_load_step = "
  ++ str_int friend_load_step
  ++ ";
    var friend_is_member_step = "
  ++ str_int friend_is_member_step
  ++ ";
    
    var user = API.users.get({user_ids: user_id});
    var uid = user[0].id;
    
    var friends = API.friends.get({user_id:uid, count: friend_load_step});
    
    var i = friend_load_step;
    var count = friends.count;
    
    while(i < count)
    {
      friends.items = friends.items
        + API.friends.get({user_id:uid, count: friend_load_step, offset: i})
          .items;
      i = i + friend_load_step;
    }
    
    var sum = 0;
    var slice = 0;
    count = friends.length;
    
    while(slice < count)
    {
      var member_flags =
        API.groups.isMember({group_id: group_id,
                             user_ids:
                                 friends.items.slice(slice,
                                   slice + friend_is_member_step)
                             }
                           )@.member;
    
      sum = sum + ((member_flags+"
  ++ dq
  ++ dq
  ++ ").split(0)+"
  ++ dq
  ++ dq
  ++ ").split(1).length-1;
      
      slice = slice + friend_is_member_step;
    }
    
    
    return {user: user,
             special_group: (sum <= members_threshold),
             friends_in_group: sum,
             group: API.groups.getById({group_id: group_id,
               fields: ["
  ++ dq
  ++ "members_count"
  ++ dq
  ++ "]})
             };
".

End Templates.

Arguments GET_MAIN_USER_INFO_REQUEST_CODE : simpl never.
Arguments CHECK_SPECIAL_GROUP_REQUEST_CODE : simpl never.

(** ** Data returned by the service *)

(** An element of the array that users.get returns.  The key deactivated is
    present only for a deleted or banned user. *)
Record user_rec := {
  u_id : Z;
  u_first_name : string;
  u_last_name : string;
  u_deactivated : option string
}.

(** The object that groups.get and friends.get return: the total number of
    items and the items of the requested page. *)
Record page := { count : Z; items : list Z }.

(** An element of the array that groups.getById returns, with the extra field
    members_count. *)
Record group_rec := {
  g_id : Z;
  g_name : string;
  g_screen_name : string;
  g_members_count : Z
}.

(** The value a script returns, which is what arrives under the key response.
    It is a dictionary: each key the Python code reads is present or absent.
    The summary script sets user, groups and friends; the group script sets
    user, special_group, friends_in_group and group. *)
Record payload := {
  p_user : option (list user_rec);
  p_groups : option page;
  p_friends : option page;
  p_special_group : option bool;
  p_friends_in_group : option Z;
  p_group : option (list group_rec)
}.

(** ** The two scripts, as the service runs them *)

(** The API methods the scripts call.  Their first argument is the uid the
    script computed, which is null when users.get returned nothing. *)
Record vk_api := {
  users_get : string -> list user_rec;
  groups_get : option Z -> Z -> Z -> page;      (* user_id, count, offset *)
  friends_get : option Z -> Z -> Z -> page;     (* user_id, count, offset *)
  groups_isMember : Z -> list Z -> list bool;   (* group_id, user_ids; one member flag per user *)
  groups_getById : Z -> list group_rec
}.

(** The script values that are not statically a number or an array. *)
Inductive vk_value :=
| VNull
| VNum (n : Z)
| VArr (l : list Z).

(** Reading a field of a [page] object by name.  The object has the two
    fields count and items; any other name reads as null. *)
Definition field (o : page) (name : string) : vk_value :=
  if String.eqb name "count" then VNum (count o)
  else if String.eqb name "items" then VArr (items o)
  else VNull.

(** [slice < count] where count may be any value: a comparison with something
    that is not a number is false. *)
Definition lt_value (slice : Z) (cnt : vk_value) : bool :=
  match cnt with
  | VNum n => slice <? n
  | _ => false
  end.

(** [user[0].id] *)
Definition first_id (user : list user_rec) : option Z :=
  match user with
  | u :: _ => Some (u_id u)
  | [] => None
  end.

(** The loop shared by the three paginations:

      while(i < count) { x.items = x.items + get(offset: i).items; i = i + step; }

    [acc] is x.items; [pages] is a ghost log of the pages fetched so far. *)
Fixpoint paging_loop (get : Z -> page) (step cnt : Z) (fuel : nat)
    (i : Z) (acc : list Z) (pages : list page) : option (list Z * list page) :=
  if i <? cnt then
    match fuel with
    | O => None
    | S fuel' =>
        let p := get i in
        paging_loop get step cnt fuel' (i + step) (acc ++ items p) (pages ++ [p])
    end
  else Some (acc, pages).

(** A first call without offset, then the loop, starting at [i = step] with
    [count] read from the first answer.  Returns the object with all items
    and the ghost log of pages. *)
Definition fetch_all (get : Z -> Z -> page) (step : Z) (fuel : nat)
    : option (page * list page) :=
  let first := get step 0 in
  match paging_loop (get step) step (count first) fuel step (items first) [first] with
  | Some (its, pages) => Some ({| count := count first; items := its |}, pages)
  | None => None
  end.

(** [GET_MAIN_USER_INFO_REQUEST_CODE] run against [api]. *)
Definition get_main_user_info (api : vk_api) (fuel : nat)
    (user_id : string) (group_step friend_step : Z) : option payload :=
  let user := users_get api user_id in
  let uid := first_id user in
  match fetch_all (groups_get api uid) group_step fuel with
  | None => None
  | Some (groups, _) =>
      match fetch_all (friends_get api uid) friend_step fuel with
      | None => None
      | Some (friends, _) =>
          Some {| p_user := Some user; p_groups := Some groups;
                  p_friends := Some friends; p_special_group := None;
                  p_friends_in_group := None; p_group := None |}
      end
  end.

(** [s.split(c)] for a one-character separator. *)
Fixpoint split_on (c : ascii) (s : string) : list string :=
  match s with
  | EmptyString => [EmptyString]
  | String a s' =>
      if Ascii.eqb a c then EmptyString :: split_on c s'
      else match split_on c s' with
           | h :: t => String a h :: t
           | [] => [String a EmptyString]
           end
  end.

(** [a + ""] for an array [a]: its elements joined by commas. *)
Definition join_comma (l : list string) : string := String.concat "," l.

(** A member flag as the service sends it, 1 or 0, converted to a string. *)
Definition flag_str (b : bool) : string := if b then "1"%string else "0"%string.

(** [((member_flags+"").split(0)+"").split(1).length-1] *)
Definition count_flags (member_flags : list bool) : Z :=
  Z.of_nat (List.length (split_on "1" (join_comma (split_on "0"
    (join_comma (map flag_str member_flags)))))) - 1.

(** [a.slice(from, to)] with JavaScript's treatment of negative and
    out-of-range indices. *)
Definition js_index (len k : Z) : Z :=
  if k <? 0 then Z.max (len + k) 0 else Z.min k len.

Definition js_slice (a : list Z) (from to : Z) : list Z :=
  let len := Z.of_nat (List.length a) in
  let f := js_index len from in
  let t := js_index len to in
  firstn (Z.to_nat (t - f)) (skipn (Z.to_nat f) a).

(** The loop over slices of the friend list:

      while(slice < count) {
        var member_flags = API.groups.isMember({group_id, user_ids:
                             friends.items.slice(slice, slice + step)})@.member;
        sum = sum + (count of the flags that are 1);
        slice = slice + step;
      } *)
Fixpoint member_loop (api : vk_api) (group_id step : Z) (cnt : vk_value)
    (friends_items : list Z) (fuel : nat) (slice sum : Z) : option Z :=
  if lt_value slice cnt then
    match fuel with
    | O => None
    | S fuel' =>
        let member_flags :=
          groups_isMember api group_id (js_slice friends_items slice (slice + step)) in
        member_loop api group_id step cnt friends_items fuel'
          (slice + step) (sum + count_flags member_flags)
    end
  else Some sum.

(** The first half of [CHECK_SPECIAL_GROUP_REQUEST_CODE]: the friend list. *)
Definition load_friends (api : vk_api) (fuel : nat) (user_id : string)
    (friend_load_step : Z) : option (page * list page) :=
  fetch_all (friends_get api (first_id (users_get api user_id))) friend_load_step fuel.

(** The second half: [sum], with the loop bound the script uses,
    [count = friends.length], which reads the field length of the object
    [friends] (not of the array [friends.items]). *)
Definition friends_in_group_sum (api : vk_api) (fuel : nat) (user_id : string)
    (group_id friend_load_step friend_is_member_step : Z) : option Z :=
  match load_friends api fuel user_id friend_load_step with
  | None => None
  | Some (friends, _) =>
      member_loop api group_id friend_is_member_step (field friends "length")
        (items friends) fuel 0 0
  end.

(** [CHECK_SPECIAL_GROUP_REQUEST_CODE] run against [api]. *)
Definition check_special_group (api : vk_api) (fuel : nat) (user_id : string)
    (group_id members_threshold friend_load_step friend_is_member_step : Z)
    : option payload :=
  match friends_in_group_sum api fuel user_id group_id friend_load_step
          friend_is_member_step with
  | None => None
  | Some sum =>
      Some {| p_user := Some (users_get api user_id); p_groups := None;
              p_friends := None;
              p_special_group := Some (sum <=? members_threshold);
              p_friends_in_group := Some sum;
              p_group := Some (groups_getById api group_id) |}
  end.

(** A paging source over a fixed list: every answer carries the total and
    the requested window. *)
Definition paging_source (l : list Z) (cnt offset : Z) : page :=
  {| count := Z.of_nat (List.length l);
     items := firstn (Z.to_nat cnt) (skipn (Z.to_nat offset) l) |}.

(** ** The Python side: effects and exceptions *)

(** The exceptions of class requests.RequestException that requests.post
    raises; the commented-out handlers of the source name the first three. *)
Inductive net_error :=
| ReadTimeout
| ConnectTimeout
| ConnectionError
| OtherRequestException (description : string).

(** The object under the key error of a failure answer. *)
Record vk_error := { error_code : Z; error_msg : string }.

(** What [response.json()] gives for a completed request: it raises when the
    body is not JSON, and otherwise yields a dictionary in which each of the
    keys error and response is present or absent. *)
Inductive body :=
| Unparseable
| Parsed (error : option vk_error) (response : option payload).

(** The outcome of one call of requests.post. *)
Inductive attempt :=
| NetFail (e : net_error)
| Reply (b : body).

(** The form data of a request to the execute method. *)
Record request := {
  req_access_token : string;
  req_v : string;
  req_lang : string;
  req_code : string
}.

(** The network: the outcome of the k-th call of requests.post of the run
    (counted from 0), given what was posted. *)
Definition transport : Type := nat -> request -> attempt.

(** Why [find_unshared_groups] gives up on a user. *)
Inductive nouser :=
| NoSuchUser
| Deactivated (reason : string).

(** The exceptions that leave the two functions.  [RequestError] is the
    caught exception raised again; [VKRequestError] is the
    requests.RequestException built from an error answer; [ValueError]
    stands for the two messages about the user.  The last five come from
    below the two functions: [SleepError] is what time.sleep raises for a
    delay that it turns down (ValueError, OverflowError or OSError);
    [OverflowError] is that of an int division whose result no float holds;
    [RoundError] is the ValueError of [round] on a float that is not a
    number; [OpenError] is the OSError of [open]; [DumpError] is whatever
    leaves json.dump or the closing of the file. *)
Inductive exn :=
| RequestError (e : net_error)
| VKRequestError (code : Z) (msg : string)
| JSONDecodeError
| AttributeError
| KeyError (key : string)
| IndexError
| ZeroDivisionError
| ValueError (user_id : string) (why : nouser)
| SleepError
| OverflowError
| RoundError
| OpenError
| DumpError.

(** A record of the result list. *)
Record unshared_group := { name : string; gid : Z; members_count : Z }.

(** Lines written to sys.stderr and to sys.stdout, by what they report
    rather than by their wording. *)
Inductive err_line :=
| ErrRequest (e : net_error)
| ErrNoUser (user_id : string) (why : nouser).

(** [OutBar] is what [simple_progress] writes in one call: the bar and the
    percentage for the status [drawn], and the line breaks when it is 100. *)
Inductive out_line :=
| OutUser (user_id : string) (u : user_rec) (ngroups nfriends : Z)
| OutGroup (g : group_rec) (friends_in_group : Z)
| OutTotals (ngroups : Z) (nspecial : nat)
| OutBar (drawn : float).

(** How [open] and json.dump end for a path and a list: the list is
    written; [open] raises and the file is left as it was; the file is
    opened, and so emptied, and the dump or the closing raises. *)
Inductive write_outcome :=
| Written
| OpenFails
| DumpFails.

(** The text of a file that was opened for writing: the whole dump of the
    list, or, when the dump was cut short, some part of it. *)
Inductive file_text :=
| Whole (data : list unshared_group)
| Part (data : list unshared_group).

(** What the run does not decide: the delays that the clock of time.sleep
    takes among those that are numbers and not below zero (all but the very
    long ones), and the outcome of writing a list to a path. *)
Record platform := {
  clock : float -> bool;
  disk : string -> list unshared_group -> write_outcome
}.

(** Everything a run leaves behind, and the platform it runs on. *)
Record world := {
  posted : list request;
  slept : list float;
  stderr : list err_line;
  stdout : list out_line;
  progress_log : list float;
  files : list (string * file_text);
  env : platform
}.

(** A platform that takes every delay up to a million seconds and every
    file. *)
Definition obliging : platform :=
  {| clock := fun delay => (delay <=? 1000000)%float;
     disk := fun _ _ => Written |}.

Definition empty_world : world :=
  {| posted := []; slept := []; stderr := []; stdout := [];
     progress_log := []; files := []; env := obliging |}.

Inductive result (A : Type) :=
| Ok (a : A)
| Raise (e : exn).
Arguments Ok {A} a.
Arguments Raise {A} e.

(** A Python computation. *)
Definition M (A : Type) : Type := world -> world * result A.

Definition ret {A} (a : A) : M A := fun w => (w, Ok a).

Definition raise {A} (e : exn) : M A := fun w => (w, Raise e).

Definition bind {A B} (m : M A) (k : A -> M B) : M B :=
  fun w =>
    match m w with
    | (w', Ok a) => k a w'
    | (w', Raise e) => (w', Raise e)
    end.

Declare Scope py_scope.
Delimit Scope py_scope with py.
Notation "x <- m ;; k" := (bind m (fun x => k))
  (at level 100, m at next level, right associativity) : py_scope.
Notation "m ;; k" := (bind m (fun _ => k))
  (at level 100, right associativity) : py_scope.
Open Scope py_scope.

(** [requests.post] inside its try block: the request goes out, and a
    RequestException is printed to stderr and becomes the value of
    [response]. *)
Inductive response_var :=
| RNone
| RExc (e : net_error)
| RResp (b : body).

Definition try_post (net : transport) (req : request) : M response_var :=
  fun w =>
    match net (List.length (posted w)) req with
    | NetFail e =>
        ({| posted := posted w ++ [req]; slept := slept w;
            stderr := stderr w ++ [ErrRequest e]; stdout := stdout w;
            progress_log := progress_log w; files := files w; env := env w |}, Ok (RExc e))
    | Reply b =>
        ({| posted := posted w ++ [req]; slept := slept w;
            stderr := stderr w; stdout := stdout w;
            progress_log := progress_log w; files := files w; env := env w |}, Ok (RResp b))
    end.

(** time.sleep takes a delay that is a number, is not below zero, and is
    one that the clock of the platform takes. *)
Definition sleep_accepts (w : world) (delay : float) : bool :=
  (0 <=? delay)%float && clock (env w) delay.

(** [sleep(request_delay)]: a delay that time.sleep turns down makes it
    raise at once. *)
Definition sleep (delay : float) : M unit :=
  fun w =>
    if sleep_accepts w delay then
      ({| posted := posted w; slept := slept w ++ [delay];
          stderr := stderr w; stdout := stdout w;
          progress_log := progress_log w; files := files w; env := env w |}, Ok tt)
    else (w, Raise SleepError).

Definition print_err (l : err_line) : M unit :=
  fun w =>
    ({| posted := posted w; slept := slept w;
        stderr := stderr w ++ [l]; stdout := stdout w;
        progress_log := progress_log w; files := files w; env := env w |}, Ok tt).

Definition print_out (l : out_line) : M unit :=
  fun w =>
    ({| posted := posted w; slept := slept w;
        stderr := stderr w; stdout := stdout w ++ [l];
        progress_log := progress_log w; files := files w; env := env w |}, Ok tt).

(** The value that the progress callback is called with is noted.  The
    ints 0 and 100 of [progress(0)] and [progress(100)] are noted as the
    floats they are equal to. *)
Definition note (status : float) : M unit :=
  fun w =>
    ({| posted := posted w; slept := slept w;
        stderr := stderr w; stdout := stdout w;
        progress_log := progress_log w ++ [status]; files := files w; env := env w |}, Ok tt).

(** The file after [open(path, 'w')] and json.dump of [data] ended with
    [text]. *)
Definition after_write (path : string) (text : file_text) (w : world) : world :=
  {| posted := posted w; slept := slept w;
     stderr := stderr w; stdout := stdout w;
     progress_log := progress_log w; files := files w ++ [(path, text)];
     env := env w |}.

(** [with open(path, 'w', encoding='utf-8') as f: json.dump(data, f, ...)] *)
Definition write_file (path : string) (data : list unshared_group) : M unit :=
  fun w =>
    match disk (env w) path data with
    | Written => (after_write path (Whole data) w, Ok tt)
    | OpenFails => (w, Raise OpenError)
    | DumpFails => (after_write path (Part data) w, Raise DumpError)
    end.

(** [d[key]] on a dictionary whose key may be absent. *)
Definition getitem {A} (key : string) (o : option A) : M A :=
  match o with
  | Some a => ret a
  | None => raise (KeyError key)
  end.

(** [l[0]] *)
Definition item0 {A} (l : list A) : M A :=
  match l with
  | a :: _ => ret a
  | [] => raise IndexError
  end.

(** ** simple_progress *)

(** The status [simple_progress] draws: the two guards
    [if status < 0: status = 0] and [if status > 100: status = 100]. *)
Definition simple_progress_status (status : float) : float :=
  let status := if (status <? 0)%float then 0%float else status in
  if (100 <? status)%float then 100%float else status.

(** A float that is a number: it equals itself. *)
Definition is_number (x : float) : bool := (x =? x)%float.

(** [simple_progress(status)], [tty] being the value of
    [is_in_ipython() or is_a_tty()].  On a terminal the bar is drawn for the
    status between its guards; a status that is not a number passes both
    guards and [round] raises for it before anything is written.  Elsewhere
    nothing happens. *)
Definition simple_progress (tty : bool) (status : float) : M unit :=
  if tty then
    if is_number status then print_out (OutBar (simple_progress_status status))
    else raise RoundError
  else ret tt.

(** The argument [progress]: [simple_progress], which is the default, or a
    callback of the caller's that takes the value and does nothing that a
    [world] records. *)
Inductive callback :=
| SimpleProgress
| Recorder.

(** [progress(status)] *)
Definition call_progress (cb : callback) (tty : bool) (status : float) : M unit :=
  note status ;;
  match cb with
  | SimpleProgress => simple_progress tty status
  | Recorder => ret tt
  end.

(** ** do_execute_request *)

Definition API_VERSION : string := "5.80".

(** [data=dict(access_token=token, v=API_VERSION, lang=lang, code=code)] *)
Definition form_data (code lang token : string) : request :=
  {| req_access_token := token; req_v := API_VERSION;
     req_lang := lang; req_code := code |}.

(** ['error' in response.json()] *)
Definition error_in (b : body) : M bool :=
  match b with
  | Unparseable => raise JSONDecodeError
  | Parsed (Some _) _ => ret true
  | Parsed None _ => ret false
  end.

(** The body of [for i in range(request_repeat)], [n] iterations left.
    The result is the value of [response] when the loop is left. *)
Fixpoint attempt_loop (net : transport) (req : request) (request_delay : float)
    (n : nat) (response : response_var) : M response_var :=
  match n with
  | O => ret response
  | S n' =>
      response <- try_post net req ;;
      ok <- match response with
            | RResp b => e <- error_in b ;; ret (negb e)
            | _ => ret false
            end ;;
      if (ok : bool) then ret response
      else sleep request_delay ;; attempt_loop net req request_delay n' response
  end.

(** After the loop: an exception is raised again; [None] has no method json;
    an answer with the key error becomes a RequestException with its code
    and message; otherwise the value under the key response is returned. *)
Definition do_execute_request (net : transport) (code lang token : string)
    (request_delay : float) (request_repeat : Z) : M payload :=
  let req := form_data code lang token in
  response <- attempt_loop net req request_delay (Z.to_nat request_repeat) RNone ;;
  match response with
  | RExc e => raise (RequestError e)
  | RNone => raise AttributeError
  | RResp Unparseable => raise JSONDecodeError
  | RResp (Parsed (Some err) _) =>
      raise (VKRequestError (error_code err) (error_msg err))
  | RResp (Parsed None r) => getitem "response" r
  end.

(** ** find_unshared_groups *)

(** The keyword arguments.  request_timeout only decides which attempts
    time out, which the [transport] already fixes. *)
Record config := {
  members_threshold : Z;
  json_file : option string;
  lang : string;
  token : string;
  silent : bool;
  raise_nouser : bool;
  progress : callback;
  group_step : Z;
  friend_step : Z;
  friend_load_step : Z;
  friend_is_member_step : Z;
  request_delay : float;
  request_repeat : Z
}.

(** The quotient of two positive ints as a binary64 float, rounded once, to
    the nearest and to even on a tie; infinite when no float is near
    enough. *)
Definition quotient (a b : positive) (negative : bool) : spec_float :=
  let '(m, e, l) := SFdiv_core_binary prec emax (Zpos a) 0 (Zpos b) 0 in
  binary_round_aux prec emax negative m e l.

(** The same for two ints, the second of them not 0. *)
Definition truediv (a b : Z) : spec_float :=
  match a, b with
  | Z0, Zneg _ => S754_zero true
  | Z0, _ => S754_zero false
  | Zpos p, Zpos q | Zneg p, Zneg q => quotient p q false
  | Zpos p, Zneg q | Zneg p, Zpos q => quotient p q true
  | _, Z0 => S754_nan
  end.

(** [a / b] on ints: the exact quotient is rounded to a float, and it is an
    OverflowError when it is too large for one. *)
Definition int_truediv (a b : Z) : M float :=
  if b =? 0 then raise ZeroDivisionError
  else
    match truediv a b with
    | S754_infinity _ => raise OverflowError
    | q => ret (SF2Prim q)
    end.

(** [1 / x] on floats, which raises for a zero divisor. *)
Definition one_over (x : float) : M float :=
  if (x =? 0)%float then raise ZeroDivisionError else ret (1 / x)%float.

(** [if json_file:] is false for None and for the empty string. *)
Definition truthy_path (json_file : option string) : option string :=
  match json_file with
  | Some EmptyString => None
  | other => other
  end.

(** The body of [for group in user_info['groups']['items']], over the groups
    still to visit, with the loop's two variables. *)
Fixpoint analyze_groups (net : transport) (tty : bool) (cfg : config) (quiet : bool)
    (user_id : string) (progress_step : float) (todo : list Z)
    (progress_status : float) (special_groups : list unshared_group)
    : M (list unshared_group) :=
  match todo with
  | [] => ret special_groups
  | group :: todo' =>
      let code := CHECK_SPECIAL_GROUP_REQUEST_CODE user_id group
                    (members_threshold cfg) (friend_load_step cfg)
                    (friend_is_member_step cfg) in
      group_info <- do_execute_request net code (lang cfg) (token cfg)
                      (request_delay cfg) (request_repeat cfg) ;;
      let progress_status := (progress_status + progress_step)%float in
      call_progress (progress cfg) tty progress_status ;;
      special <- getitem "special_group" (p_special_group group_info) ;;
      if (special : bool) then
        g <- getitem "group" (p_group group_info) ;;
        g0 <- item0 g ;;
        let special_groups :=
          special_groups ++ [{| name := g_name g0; gid := g_id g0;
                                members_count := g_members_count g0 |}] in
        (if quiet then ret tt
         else
           n <- getitem "friends_in_group" (p_friends_in_group group_info) ;;
           print_out (OutGroup g0 n)) ;;
        analyze_groups net tty cfg quiet user_id progress_step todo'
          progress_status special_groups
      else
        analyze_groups net tty cfg quiet user_id progress_step todo'
          progress_status special_groups
  end.

(** [find_unshared_groups(user_id, **cfg)].  [tty] is the value of
    [is_in_ipython() or is_a_tty()] and [user_id] is the identifier as
    [str.format] renders it.  The result is the list [special_groups]; the
    function hands it out as the text [json.dumps] makes of it. *)
Definition find_unshared_groups (net : transport) (tty : bool) (cfg : config)
    (user_id : string) : M (list unshared_group) :=
  let quiet := if negb tty then true else silent cfg in
  call_progress (progress cfg) tty 0%float ;;
  let code := GET_MAIN_USER_INFO_REQUEST_CODE user_id (group_step cfg)
                (friend_step cfg) in
  user_info <- do_execute_request net code (lang cfg) (token cfg)
                 (request_delay cfg) (request_repeat cfg) ;;
  user <- getitem "user" (p_user user_info) ;;
  special_groups <-
    match user with
    | [] =>
        call_progress (progress cfg) tty 100%float ;;
        if raise_nouser cfg then raise (ValueError user_id NoSuchUser)
        else print_err (ErrNoUser user_id NoSuchUser) ;; ret []
    | u :: _ =>
        match u_deactivated u with
        | Some reason =>
            call_progress (progress cfg) tty 100%float ;;
            if raise_nouser cfg then raise (ValueError user_id (Deactivated reason))
            else print_err (ErrNoUser user_id (Deactivated reason)) ;; ret []
        | None =>
            groups <- getitem "groups" (p_groups user_info) ;;
            progress_status <- int_truediv (count groups + 1) 100 ;;
            progress_step <- one_over progress_status ;;
            call_progress (progress cfg) tty progress_status ;;
            (if quiet then ret tt
             else
               friends <- getitem "friends" (p_friends user_info) ;;
               print_out (OutUser user_id u (count groups) (count friends))) ;;
            special_groups <- analyze_groups net tty cfg quiet user_id progress_step
                                (items groups) progress_status [] ;;
            call_progress (progress cfg) tty 100%float ;;
            (if quiet then ret tt
             else print_out (OutTotals (count groups) (List.length special_groups))) ;;
            ret special_groups
        end
    end ;;
  match truthy_path (json_file cfg) with
  | Some path => write_file path special_groups
  | None => ret tt
  end ;;
  ret special_groups.

(** ** Vocabulary of the statements *)

(** An attempt that the retry loop counts as failed: requests.post raised, or
    the answer carries the key error. *)
Definition is_failure (a : attempt) : Prop :=
  match a with
  | NetFail _ => True
  | Reply (Parsed (Some _) _) => True
  | _ => False
  end.

(** The exception [do_execute_request] raises when its last attempt is the
    failed attempt [a]. *)
Definition failure_exn (a : attempt) : exn :=
  match a with
  | NetFail e => RequestError e
  | Reply (Parsed (Some err) _) => VKRequestError (error_code err) (error_msg err)
  | Reply _ => JSONDecodeError
  end.

(** The request [find_unshared_groups] posts first, and the one it posts for
    a group. *)
Definition summary_request (cfg : config) (user_id : string) : request :=
  form_data (GET_MAIN_USER_INFO_REQUEST_CODE user_id (group_step cfg) (friend_step cfg))
    (lang cfg) (token cfg).

Definition group_request (cfg : config) (user_id : string) (group : Z) : request :=
  form_data (CHECK_SPECIAL_GROUP_REQUEST_CODE user_id group (members_threshold cfg)
               (friend_load_step cfg) (friend_is_member_step cfg))
    (lang cfg) (token cfg).

(** The value of [response] after an attempt. *)
Definition response_of (a : attempt) : response_var :=
  match a with
  | NetFail e => RExc e
  | Reply b => RResp b
  end.

(** The world after one call of requests.post whose outcome is [a]. *)
Definition after_post (req : request) (a : attempt) (w : world) : world :=
  {| posted := posted w ++ [req]; slept := slept w;
     stderr := match a with
               | NetFail e => stderr w ++ [ErrRequest e]
               | Reply _ => stderr w
               end;
     stdout := stdout w; progress_log := progress_log w; files := files w; env := env w |}.

(** The world after a [sleep(delay)] that returns. *)
Definition after_sleep (delay : float) (w : world) : world :=
  {| posted := posted w; slept := slept w ++ [delay]; stderr := stderr w;
     stdout := stdout w; progress_log := progress_log w; files := files w; env := env w |}.

(** The fields of the world that a request never touches. *)
Definition same_outputs (w w' : world) : Prop :=
  stdout w' = stdout w /\ progress_log w' = progress_log w /\ files w' = files w.

(** Requests are only ever added to the log of what was posted. *)
Definition keeps_posted {A} (m : M A) : Prop :=
  forall w, exists l, posted (fst (m w)) = posted w ++ l.

(** The number of items of a listing, and the number of pages of size
    [pageSize] that [total] items fill. *)
Definition total (l : list Z) : Z := Z.of_nat (List.length l).

Definition ceil_div (total pageSize : Z) : Z := (total + pageSize - 1) / pageSize.

(** What a pagination delivers for the listing [l]: the pages put end to end
    are [l] (nothing twice, nothing left out, the order kept), and their
    number is [expected]. *)
Definition pages_cover (l : list Z) (expected : Z) (pages : list page) : Prop :=
  List.concat (map items pages) = l /\ Z.of_nat (List.length pages) = expected.

(** Occurrences of a character, and the replacement of one character by
    another, used to explain [count_flags]. *)
Fixpoint count_char (c : ascii) (s : string) : nat :=
  match s with
  | EmptyString => O
  | String a s' => (if Ascii.eqb a c then 1 else 0) + count_char c s'
  end.

Fixpoint subst_char (c d : ascii) (s : string) : string :=
  match s with
  | EmptyString => EmptyString
  | String a s' => String (if Ascii.eqb a c then d else a) (subst_char c d s')
  end.

(** The first request of a run that starts in [w], and its outcome: what
    [find_unshared_groups] gets from its first call of [do_execute_request].
    [progress(0)], which comes before it, leaves alone all that the request
    depends on. *)
Definition summary_answer (net : transport) (cfg : config) (user_id : string)
    (w : world) : world * result payload :=
  do_execute_request net
    (GET_MAIN_USER_INFO_REQUEST_CODE user_id (group_step cfg) (friend_step cfg))
    (lang cfg) (token cfg) (request_delay cfg) (request_repeat cfg) w.

(** The request for one group and its outcome. *)
Definition group_answer (net : transport) (cfg : config) (user_id : string)
    (group : Z) (w : world) : world * result payload :=
  do_execute_request net
    (CHECK_SPECIAL_GROUP_REQUEST_CODE user_id group (members_threshold cfg)
       (friend_load_step cfg) (friend_is_member_step cfg))
    (lang cfg) (token cfg) (request_delay cfg) (request_repeat cfg) w.


(** The record appended for a special group. *)
Definition to_record (g0 : group_rec) : unshared_group :=
  {| name := g_name g0; gid := g_id g0; members_count := g_members_count g0 |}.

(** What the run writes to disk when it ends with the list [data]. *)
Definition written (cfg : config) (data : list unshared_group)
    : list (string * file_text) :=
  match truthy_path (json_file cfg) with
  | Some path => [(path, Whole data)]
  | None => []
  end.

(** The platform takes the file that the run writes when it ends with
    [data]; no file is asked of it when [json_file] is None or empty. *)
Definition file_is_taken (cfg : config) (w : world) (data : list unshared_group)
    : Prop :=
  match truthy_path (json_file cfg) with
  | Some path => disk (env w) path data = Written
  | None => True
  end.

(** The first value of [progress_status]:
    [(user_info['groups']['count'] + 1) / 100]. *)
Definition first_status (groups : page) : float :=
  SF2Prim (truediv (count groups + 1) 100).

(** The group script, run by the service for [group], finds a count of
    friends that is at most the threshold. *)
Definition is_unshared (api : vk_api) (fuel : nat) (cfg : config) (user_id : string)
    (group : Z) : bool :=
  match friends_in_group_sum api fuel user_id group (friend_load_step cfg)
          (friend_is_member_step cfg) with
  | Some sum => sum <=? members_threshold cfg
  | None => false
  end.

(** The record of [group], from the first element of what groups.getById
    returns for it. *)
Definition record_of (api : vk_api) (group : Z) : list unshared_group :=
  match groups_getById api group with
  | g0 :: _ => [to_record g0]
  | [] => []
  end.

(** The network answers a group request, when it answers with a value at
    all, with what the group script computes against [api]. *)
Definition service_runs_script (api : vk_api) (fuel : nat) (net : transport)
    (cfg : config) (user_id : string) (groups : list Z) : Prop :=
  forall k group v,
    In group groups ->
    net k (group_request cfg user_id group) = Reply (Parsed None (Some v)) ->
    check_special_group api fuel user_id group (members_threshold cfg)
      (friend_load_step cfg) (friend_is_member_step cfg) = Some v.

(** Properties of a sequence of progress values. *)
Fixpoint non_decreasing (l : list float) : bool :=
  match l with
  | a :: (b :: _) as rest => (a <=? b)%float && non_decreasing rest
  | _ => true
  end.

Definition within_0_100 (l : list float) : bool :=
  forallb (fun v => (0 <=? v)%float && (v <=? 100)%float) l.

(** An identifier that ends the string literal it is interpolated into. *)
Fixpoint contains_quote (s : string) : bool :=
  match s with
  | EmptyString => false
  | String a s' => Ascii.eqb a "034"%char || contains_quote s'
  end.

(** ** Four readings that the code does not meet *)

(** Pagination fetches exactly ceil(total / pageSize) pages. *)
Definition fetches_ceil_pages : Prop :=
  forall (l : list Z) (pageSize : Z) (fuel : nat) (all : page) (pages : list page),
    1 <= pageSize ->
    fetch_all (paging_source l) pageSize fuel = Some (all, pages) ->
    pages_cover l (ceil_div (total l) pageSize) pages.

(** A body that does not parse counts as a failed attempt and is retried:
    when every attempt fails or is garbled, all the attempts are made. *)
Definition malformed_body_is_retried : Prop :=
  forall net code lang token delay request_repeat w,
    1 <= request_repeat ->
    let req := form_data code lang token in
    let base := List.length (posted w) in
    let n := Z.to_nat request_repeat in
    (forall i, (i < n)%nat ->
       is_failure (net (base + i)%nat req) \/ net (base + i)%nat req = Reply Unparseable) ->
    List.length (posted (fst (do_execute_request net code lang token delay request_repeat w)))
    = (base + n)%nat.

(** An unsafe identifier is turned down before anything is posted. *)
Definition unsafe_identifier_is_rejected : Prop :=
  forall net tty cfg user_id w,
    contains_quote user_id = true ->
    posted (fst (find_unshared_groups net tty cfg user_id w)) = posted w.


(** ** Concrete runs *)

(** The defaults of the module, but for the access token. *)
Definition example_config : config :=
  {| members_threshold := 0; json_file := Some "groups.json"%string;
     lang := "ru"; token := "token"; silent := false; raise_nouser := true;
     progress := SimpleProgress; group_step := 1000; friend_step := 5000; friend_load_step := 5000;
     friend_is_member_step := 500; request_delay := 0.5%float;
     request_repeat := 10 |}.


(** The defaults but for [silent]. *)
Definition silent_config : config :=
  {| members_threshold := 0; json_file := Some "groups.json"%string;
     lang := "ru"; token := "token"; silent := true; raise_nouser := true;
     progress := SimpleProgress; group_step := 1000; friend_step := 5000;
     friend_load_step := 5000; friend_is_member_step := 500;
     request_delay := 0.5%float; request_repeat := 10 |}.

Definition example_user : user_rec :=
  {| u_id := 171691064; u_first_name := "Ivan"; u_last_name := "Ivanov";
     u_deactivated := None |}.

Definition banned_user : user_rec :=
  {| u_id := 171691064; u_first_name := "Ivan"; u_last_name := "Ivanov";
     u_deactivated := Some "banned"%string |}.

Definition example_group (g : Z) : group_rec :=
  {| g_id := g; g_name := "Group"; g_screen_name := "club"; g_members_count := 42 |}.

(** What the summary script returns, and what the group script returns. *)
Definition summary_payload (user : list user_rec) (groups friends : list Z) : payload :=
  {| p_user := Some user;
     p_groups := Some {| count := total groups; items := groups |};
     p_friends := Some {| count := total friends; items := friends |};
     p_special_group := None; p_friends_in_group := None; p_group := None |}.

Definition group_payload (special : bool) (n : Z) (g : group_rec) : payload :=
  {| p_user := Some [example_user]; p_groups := None; p_friends := None;
     p_special_group := Some special; p_friends_in_group := Some n;
     p_group := Some [g] |}.

Definition success (v : payload) : attempt := Reply (Parsed None (Some v)).

Definition too_many_requests : attempt :=
  Reply (Parsed (Some {| error_code := 6; error_msg := "Too many requests per second" |})
           None).

Definition net_always_down : transport := fun _ _ => NetFail ConnectTimeout.

Definition net_always_throttled : transport := fun _ _ => too_many_requests.

Definition net_up_at_third : transport :=
  fun k _ =>
    match k with
    | 0%nat => NetFail ReadTimeout
    | 1%nat => too_many_requests
    | _ => success (summary_payload [example_user] [] [])
    end.

Definition net_garbled_first : transport :=
  fun k _ =>
    match k with
    | 0%nat => Reply Unparseable
    | _ => success (summary_payload [example_user] [] [])
    end.

Definition net_garbled_then_down : transport :=
  fun k _ =>
    match k with
    | 0%nat => Reply Unparseable
    | _ => NetFail ConnectTimeout
    end.

Definition net_no_user : transport := fun _ _ => success (summary_payload [] [] []).

Definition net_banned_user : transport :=
  fun _ _ => success (summary_payload [banned_user] [101] [11]).

Definition net_no_groups : transport :=
  fun _ _ => success (summary_payload [example_user] [] [11; 12]).

(** A user with the groups 1 to [n], none of which is reported as special;
    every request is answered at once. *)
Definition net_groups (n : nat) : transport :=
  fun k _ =>
    match k with
    | 0%nat => success (summary_payload [example_user] (map Z.of_nat (seq 1 n)) [11; 12])
    | _ => success (group_payload false 1 (example_group (Z.of_nat k)))
    end.

Definition hostile_id : string := ("1" ++ dq ++ "; return 0; var x = " ++ dq)%string.

(** A service that runs the two scripts against [api]; a script that runs
    out of steps is answered with a runtime error. *)
Definition script_reply (o : option payload) : attempt :=
  match o with
  | Some v => success v
  | None => Reply (Parsed (Some {| error_code := 13; error_msg := "Runtime error" |}) None)
  end.

Definition service (api : vk_api) (fuel : nat) (cfg : config) (user_id : string)
    (groups : list Z) : transport :=
  fun _ req =>
    if String.eqb (req_code req) (req_code (summary_request cfg user_id))
    then script_reply (get_main_user_info api fuel user_id (group_step cfg) (friend_step cfg))
    else
      match find (fun g => String.eqb (req_code req)
                             (req_code (group_request cfg user_id g))) groups with
      | Some g =>
          script_reply (check_special_group api fuel user_id g (members_threshold cfg)
                          (friend_load_step cfg) (friend_is_member_step cfg))
      | None => Reply Unparseable
      end.

(** Two groups and three friends, every friend a member of every group. *)
Definition example_api : vk_api :=
  {| users_get := fun _ => [example_user];
     groups_get := fun _ => paging_source [101; 102];
     friends_get := fun _ => paging_source [11; 12; 13];
     groups_isMember := fun _ ids => map (fun _ => true) ids;
     groups_getById := fun g => [example_group g] |}.

(** ** The command line *)

(** Text is held as its UTF-8 bytes.  White space is what [str.strip] takes
    off: the ASCII characters 9 to 13 and 28 to 32, and the characters
    U+0085, U+00A0, U+1680, U+2000 to U+200A, U+2028, U+2029, U+202F, U+205F
    and U+3000, which take two or three bytes. *)
Definition ascii_space (a : ascii) : bool :=
  let n := nat_of_ascii a in
  ((9 <=? n)%nat && (n <=? 13)%nat) || ((28 <=? n)%nat && (n <=? 32)%nat).

Definition two_byte_space (a b : ascii) : bool :=
  let m := nat_of_ascii b in
  (nat_of_ascii a =? 194)%nat && ((m =? 133)%nat || (m =? 160)%nat).

Definition three_byte_space (a b c : ascii) : bool :=
  let x := nat_of_ascii a in
  let y := nat_of_ascii b in
  let z := nat_of_ascii c in
  ((x =? 225)%nat && (y =? 154)%nat && (z =? 128)%nat)
  || ((x =? 226)%nat && (y =? 128)%nat
      && (((128 <=? z)%nat && (z <=? 138)%nat)
          || (z =? 168)%nat || (z =? 169)%nat || (z =? 175)%nat))
  || ((x =? 226)%nat && (y =? 129)%nat && (z =? 159)%nat)
  || ((x =? 227)%nat && (y =? 128)%nat && (z =? 128)%nat).

(** White space taken off the front; [sp2] and [sp3] recognise the
    characters of two and three bytes. *)
Fixpoint strip_front (sp2 : ascii -> ascii -> bool)
    (sp3 : ascii -> ascii -> ascii -> bool) (s : string) : string :=
  match s with
  | EmptyString => EmptyString
  | String a rest =>
      if ascii_space a then strip_front sp2 sp3 rest
      else
        match rest with
        | EmptyString => s
        | String b rest2 =>
            if sp2 a b then strip_front sp2 sp3 rest2
            else
              match rest2 with
              | EmptyString => s
              | String c rest3 =>
                  if sp3 a b c then strip_front sp2 sp3 rest3 else s
              end
        end
  end.

Fixpoint reverse (s acc : string) : string :=
  match s with
  | EmptyString => acc
  | String a rest => reverse rest (String a acc)
  end.

(** [s.strip()]: the front, then the back, read backwards. *)
Definition strip (s : string) : string :=
  let front := strip_front two_byte_space three_byte_space s in
  reverse
    (strip_front (fun a b => two_byte_space b a) (fun a b c => three_byte_space c b a)
       (reverse front EmptyString))
    EmptyString.

(** [s.strip() == ''] *)
Definition blank (s : string) : bool :=
  match strip s with
  | EmptyString => true
  | _ => false
  end.

Definition MEMBERS_THRESHOLD : Z := 0.
Definition DEFAULT_LANG : string := "ru".

(** The value of a timeout argument after parsing: the default 7 of
    REQUEST_TIMEOUT, or the word that [str2timeout] let through. *)
Inductive timeout_word :=
| Seven
| Word (s : string).

(** [request_timeout]: None, one number or a pair. *)
Inductive timeout :=
| NoTimeout
| Both (t : float)
| ConnectRead (connect read : float).

(** [vars(parser.parse_args())], without the two entries that only make the
    parser print and exit. *)
Record arguments := {
  arg_user_id : option string;
  arg_token : string;
  arg_request_repeat : Z;
  arg_request_delay : float;
  arg_request_timeout1 : timeout_word;
  arg_request_timeout2 : timeout_word;
  arg_output_json_file : string;
  arg_group_step : Z;
  arg_friend_step : Z;
  arg_friend_load_step : Z;
  arg_friend_is_member_step : Z;
  arg_members_threshold : Z;
  arg_interactive : bool;
  arg_silent : bool
}.

(** What the main program writes to stdout itself. *)
Inductive cli_event :=
| Banner
| AskUserId
| AskThreshold
| Invalid
| ExampleNotice.

(** How the main program ends before it calls [find_unshared_groups]:
    [input] at the end of stdin, [float] on a word it does not take, and the
    call of the method isnumber, which a str does not have. *)
Inductive cli_error :=
| EOFError
| FloatValueError
| NoMethod_isnumber.

(** The call that the main program makes. *)
Inductive outcome :=
| Launch (user_id : string) (cfg : config) (request_timeout : timeout)
| Crash (e : cli_error).

(** The first loop of the interactive mode:

      while True:
          user_id = input(...).strip()
          if user_id != '': break
          print('Неверный ввод')

    over the lines still to be read from stdin. *)
Fixpoint ask_user_id (lines : list string)
    : list cli_event * (cli_error + string * list string) :=
  match lines with
  | [] => ([AskUserId], inl EOFError)
  | line :: rest =>
      if blank line then
        let (events, r) := ask_user_id rest in
        (AskUserId :: Invalid :: events, r)
      else ([AskUserId], inr (strip line, rest))
  end.

(** The second loop, which ends in its first round: an empty answer gives
    the default, and any other answer is asked [.isnumber()]. *)
Definition ask_threshold (lines : list string) : list cli_event * (cli_error + Z) :=
  match lines with
  | [] => ([AskThreshold], inl EOFError)
  | line :: _ =>
      if blank line then ([AskThreshold], inr MEMBERS_THRESHOLD)
      else ([AskThreshold], inl NoMethod_isnumber)
  end.

Section Main.

(** [float(s)] for a str, [None] standing for ValueError. *)
Variable py_float : string -> option float.

Definition is_None (t : timeout_word) : bool :=
  match t with
  | Seven => false
  | Word s => String.eqb s "None"
  end.

Definition to_float (t : timeout_word) : option float :=
  match t with
  | Seven => Some 7%float
  | Word s => py_float s
  end.

(** The four cases of [params['request_timeout']]. *)
Definition request_timeout_of (t1 t2 : timeout_word) : option timeout :=
  if is_None t1 && is_None t2 then Some NoTimeout
  else if is_None t1 then option_map Both (to_float t2)
  else if is_None t2 then option_map Both (to_float t1)
  else
    match to_float t1 with
    | Some connect => option_map (ConnectRead connect) (to_float t2)
    | None => None
    end.

(** The keyword arguments of the call: [members_threshold] and [params].
    [lang], [raise_nouser] and [progress] are not among them and keep their
    defaults. *)
Definition config_of (args : arguments) (threshold : Z) : config :=
  {| members_threshold := threshold;
     json_file := if String.eqb (strip (arg_output_json_file args)) "None"
                  then None else Some (arg_output_json_file args);
     lang := DEFAULT_LANG;
     token := arg_token args;
     silent := arg_silent args;
     raise_nouser := true;
     progress := SimpleProgress;
     group_step := arg_group_step args;
     friend_step := arg_friend_step args;
     friend_load_step := arg_friend_load_step args;
     friend_is_member_step := arg_friend_is_member_step args;
     request_delay := arg_request_delay args;
     request_repeat := arg_request_repeat args |}.

(** The main program up to its call of [find_unshared_groups]: what it
    writes, and the call or the exception.  [tty] is
    [is_in_ipython() or is_a_tty()], [lines] is stdin. *)
Definition main (args : arguments) (tty : bool) (lines : list string)
    : list cli_event * outcome :=
  match request_timeout_of (arg_request_timeout1 args) (arg_request_timeout2 args) with
  | None => ([], Crash FloatValueError)
  | Some request_timeout =>
      if arg_interactive args then
        match ask_user_id lines with
        | (events, inl e) => (Banner :: events, Crash e)
        | (events, inr (user_id, rest)) =>
            match ask_threshold rest with
            | (events2, inl e) => (Banner :: events ++ events2, Crash e)
            | (events2, inr threshold) =>
                (Banner :: events ++ events2,
                 Launch user_id (config_of args threshold) request_timeout)
            end
        end
      else
        match arg_user_id args with
        | Some user_id =>
            ([], Launch user_id (config_of args (arg_members_threshold args))
                   request_timeout)
        | None =>
            ((if negb (arg_silent args) && tty then [ExampleNotice] else []),
             Launch "a_medvedev_01" (config_of args (arg_members_threshold args))
               request_timeout)
        end
  end.

End Main.

(** The arguments of an interactive call with a threshold of 5, and a
    [float] that takes the word 7 and no other. *)
Definition sample_arguments : arguments :=
  {| arg_user_id := Some "171691064"%string; arg_token := "token";
     arg_request_repeat := 10; arg_request_delay := 0.5%float;
     arg_request_timeout1 := Seven; arg_request_timeout2 := Word "None";
     arg_output_json_file := " None "; arg_group_step := 1000;
     arg_friend_step := 5000; arg_friend_load_step := 5000;
     arg_friend_is_member_step := 500; arg_members_threshold := 5;
     arg_interactive := true; arg_silent := false |}.

Definition plain_float (s : string) : option float :=
  if String.eqb s "7" then Some 7%float else None.

(** Lines of white space only, and what the program writes for them. *)
Definition all_blank (lines : list string) : Prop :=
  Forall (fun line => blank line = true) lines.

Definition complaints (blanks : list string) : list cli_event :=
  flat_map (fun _ => [AskUserId; Invalid]) blanks.

(** ** Vocabulary of the further properties *)

(** The outcomes of the [j] attempts that follow [base] requests. *)
Definition attempts_made (net : transport) (req : request) (base j : nat)
    : list attempt :=
  map (fun i => net (base + i)%nat req) (seq 0 j).

(** The lines that the except clause prints for a list of attempts: one for
    each exception of requests.post, none for an answer. *)
Definition printed (l : list attempt) : list err_line :=
  flat_map (fun a => match a with
                     | NetFail e => [ErrRequest e]
                     | Reply _ => []
                     end) l.

(** The exceptions that the docstring of [do_execute_request] announces:
    requests.RequestException, raised again or built from an error answer. *)
Definition is_request_error (e : exn) : Prop :=
  match e with
  | RequestError _ | VKRequestError _ _ => True
  | _ => False
  end.

(** An answer in which neither the key error nor the key response is present. *)
Definition keyless : attempt := Reply (Parsed None None).

(** What the loop hands on when it is left at the attempt [a], which did
    not fail. *)
Definition left_with (a : attempt) : result response_var :=
  match a with
  | Reply Unparseable => Raise JSONDecodeError
  | other => Ok (response_of other)
  end.

(** A computation leaves an observation of the world as it was. *)
Definition leaves {A X} (f : world -> X) (m : M A) : Prop :=
  forall w, f (fst (m w)) = f w.

(** The rule of the output file, for a computation that ends the run: the
    whole list when it returns, a part when the dump was cut short, nothing
    otherwise. *)
Definition file_rule (cfg : config) (m : M (list unshared_group)) : Prop :=
  forall w,
    match snd (m w) with
    | Ok special_groups => files (fst (m w)) = files w ++ written cfg special_groups
    | Raise DumpError =>
        exists path data,
          truthy_path (json_file cfg) = Some path
          /\ files (fst (m w)) = files w ++ [(path, Part data)]
    | Raise _ => files (fst (m w)) = files w
    end.

(** A computation touches no file and raises neither of the exceptions of
    the writing of the file. *)
Definition before_file {A} (m : M A) : Prop :=
  forall w,
    files (fst (m w)) = files w
    /\ match snd (m w) with
       | Raise DumpError | Raise OpenError => False
       | _ => True
       end.

(** A request error that leaves a computation comes from a request whose
    [n] attempts all failed. *)
Definition exhausts (net : transport) (n : nat) {A} (m : M A) : Prop :=
  forall w e,
    snd (m w) = Raise e ->
    is_request_error e ->
    exists earlier req,
      posted (fst (m w)) = earlier ++ repeat req n
      /\ (1 <= n)%nat
      /\ (forall i, (i < n)%nat -> is_failure (net (List.length earlier + i)%nat req))
      /\ e = failure_exn (net (List.length earlier + (n - 1))%nat req).

(** The requests posted for the groups, [counts] giving the number of
    attempts made for each. *)
Definition group_posts (cfg : config) (user_id : string) (groups : list Z)
    (counts : list nat) : list request :=
  List.concat (map (fun gj => repeat (group_request cfg user_id (fst gj)) (snd gj))
                 (combine groups counts)).

(** The values of [progress_status] in the loop over [n] groups. *)
Fixpoint statuses (progress_status progress_step : float) (n : nat) : list float :=
  match n with
  | O => []
  | S n' =>
      (progress_status + progress_step)%float
        :: statuses (progress_status + progress_step)%float progress_step n'
  end.

(** The record that a block printed for a group shows. *)
Definition group_block (l : out_line) : list unshared_group :=
  match l with
  | OutGroup g _ => [to_record g]
  | _ => []
  end.

Definition is_group_block (l : out_line) : Prop :=
  match l with
  | OutGroup _ _ => True
  | _ => False
  end.

(** A line that is a bar of the progress callback. *)
Definition is_bar (l : out_line) : Prop :=
  match l with
  | OutBar _ => True
  | _ => False
  end.

(** A computation writes nothing to stdout but bars. *)
Definition only_bars {A} (m : M A) : Prop :=
  forall w,
    exists bars, stdout (fst (m w)) = stdout w ++ bars /\ Forall is_bar bars.

(** A computation sleeps [delay] each time it sleeps, and at most once for
    each request that it posts. *)
Definition paced (delay : float) {A} (m : M A) : Prop :=
  forall w,
    exists new s,
      posted (fst (m w)) = posted w ++ new
      /\ slept (fst (m w)) = slept w ++ repeat delay s
      /\ (s <= List.length new)%nat.

(** What the callback [cb] writes to stdout when it is called with
    [status] and returns. *)
Definition bar (cb : callback) (tty : bool) (status : float) : list out_line :=
  match cb with
  | SimpleProgress => if tty then [OutBar (simple_progress_status status)] else []
  | Recorder => []
  end.

(** The callback returns for [status]: [simple_progress] on a terminal
    raises for a status that is not a number. *)
Definition takes_status (cb : callback) (tty : bool) (status : float) : bool :=
  match cb with
  | SimpleProgress => if tty then is_number status else true
  | Recorder => true
  end.

(** [w'] is [w] with [lines] more on stdout and [values] more handed to the
    callback, and nothing else. *)
Definition only_shows (lines : list out_line) (values : list float) (w w' : world)
    : Prop :=
  posted w' = posted w /\ slept w' = slept w /\ stderr w' = stderr w
  /\ files w' = files w /\ env w' = env w
  /\ stdout w' = stdout w ++ lines
  /\ progress_log w' = progress_log w ++ values.

(** [w'] is [w] with [new] more among the files, and nothing else. *)
Definition only_writes (new : list (string * file_text)) (w w' : world) : Prop :=
  posted w' = posted w /\ slept w' = slept w /\ stderr w' = stderr w
  /\ stdout w' = stdout w /\ progress_log w' = progress_log w /\ env w' = env w
  /\ files w' = files w ++ new.

(** The last statement but one of the driver: [if json_file:] and the
    writing of the file. *)
Definition final_write (cfg : config) (data : list unshared_group) : M unit :=
  match truthy_path (json_file cfg) with
  | Some path => write_file path data
  | None => ret tt
  end.

(** The record that the driver appends for the answer [v] to the request for
    a group, and the block that it prints for it when it is not quiet. *)
Definition appended (v : payload) : list unshared_group :=
  match p_special_group v, p_group v with
  | Some true, Some (g0 :: _) => [to_record g0]
  | _, _ => []
  end.

Definition group_lines (quiet : bool) (v : payload) : list out_line :=
  if quiet then []
  else
    match p_special_group v, p_group v, p_friends_in_group v with
    | Some true, Some (g0 :: _), Some n => [OutGroup g0 n]
    | _, _, _ => []
    end.

(** The lines about the user, which a run that is not quiet prints after
    the summary. *)
Definition user_lines (quiet : bool) (user_id : string) (u : user_rec)
    (groups : page) (user_info : payload) : list out_line :=
  if quiet then []
  else
    match p_friends user_info with
    | Some friends => [OutUser user_id u (count groups) (count friends)]
    | None => []
    end.

(** The two totals, which a run that is not quiet prints at its end. *)
Definition total_lines (quiet : bool) (groups : page) (result : list unshared_group)
    : list out_line :=
  if quiet then [] else [OutTotals (count groups) (List.length result)].

(** The network gave [v] as the value of an answer to the request for
    [group]. *)
Definition answers_group (net : transport) (cfg : config) (user_id : string)
    (group : Z) (v : payload) : Prop :=
  exists k, net k (group_request cfg user_id group) = Reply (Parsed None (Some v)).

(** An answer that the loop over the groups gets through: the flag is
    there; with the flag set the group is there; and a run that is not quiet
    finds the count as well. *)
Definition usable (quiet : bool) (v : payload) : Prop :=
  exists flag,
    p_special_group v = Some flag
    /\ (flag = true ->
        (exists g0 grp, p_group v = Some (g0 :: grp))
        /\ (quiet = false -> exists n, p_friends_in_group v = Some n)).

(** What the loop over the groups writes to stdout: for each group the bar
    of its status and then its block. *)
Definition loop_lines (cb : callback) (tty quiet : bool) (values : list float)
    (answers : list payload) : list out_line :=
  List.concat (map (fun sv => bar cb tty (fst sv) ++ group_lines quiet (snd sv))
                 (combine values answers)).

(** A platform on which every dump is cut short, and the empty world on a
    platform. *)
Definition full_disk : platform :=
  {| clock := clock obliging; disk := fun _ _ => DumpFails |}.

Definition on_platform (p : platform) : world :=
  {| posted := []; slept := []; stderr := []; stdout := [];
     progress_log := []; files := []; env := p |}.

(** A summary that reports 2 to the power 53 groups and lists two of them;
    neither is then reported as special. *)
Definition huge_count_summary : payload :=
  {| p_user := Some [example_user];
     p_groups := Some {| count := 9007199254740992; items := [1; 2] |};
     p_friends := Some {| count := 2; items := [11; 12] |};
     p_special_group := None; p_friends_in_group := None; p_group := None |}.

Definition net_huge_count : transport :=
  fun k _ =>
    match k with
    | 0%nat => success huge_count_summary
    | _ => success (group_payload false 1 (example_group (Z.of_nat k)))
    end.


(** Two failures, then an answer with neither key. *)
Definition net_keyless_at_third : transport :=
  fun k _ =>
    match k with
    | 0%nat => NetFail ReadTimeout
    | 1%nat => too_many_requests
    | _ => keyless
    end.

(** * Proofs *)

(** ** The retry loop *)

(** One call of requests.post, in terms of its outcome. *)
Lemma try_post_eq net req w :
  try_post net req w
  = (after_post req (net (List.length (posted w)) req) w,
     Ok (response_of (net (List.length (posted w)) req))).
Proof. unfold try_post, after_post. destruct (net _ req); reflexivity. Qed.

(** One round of the loop: after a failed attempt the loop sleeps and goes
    on, when time.sleep takes the delay. *)
Lemma attempt_loop_step_fail net req delay n r w :
  is_failure (net (List.length (posted w)) req) ->
  sleep_accepts w delay = true ->
  attempt_loop net req delay (S n) r w
  = attempt_loop net req delay n (response_of (net (List.length (posted w)) req))
      (after_sleep delay (after_post req (net (List.length (posted w)) req) w)).
Proof.
  intros Hf Hs. cbn [attempt_loop]. unfold bind at 1. rewrite try_post_eq.
  destruct (net (List.length (posted w)) req) as [e|[|[err|] resp]];
    try contradiction;
    cbn [response_of error_in ret bind negb]; unfold bind at 1;
    unfold sleep at 1, sleep_accepts; cbn [env after_post];
    unfold sleep_accepts in Hs; rewrite Hs; reflexivity.
Qed.

(** When time.sleep turns the delay down, its exception ends the loop after
    the failed attempt. *)
Lemma attempt_loop_step_refused net req delay n r w :
  is_failure (net (List.length (posted w)) req) ->
  sleep_accepts w delay = false ->
  attempt_loop net req delay (S n) r w
  = (after_post req (net (List.length (posted w)) req) w, Raise SleepError).
Proof.
  intros Hf Hs. cbn [attempt_loop]. unfold bind at 1. rewrite try_post_eq.
  destruct (net (List.length (posted w)) req) as [e|[|[err|] resp]];
    try contradiction;
    cbn [response_of error_in ret bind negb]; unfold bind at 1;
    unfold sleep at 1, sleep_accepts; cbn [env after_post];
    unfold sleep_accepts in Hs; rewrite Hs; reflexivity.
Qed.

(** After an answer without the key error the loop is left. *)
Lemma attempt_loop_step_ok net req delay n r w resp :
  net (List.length (posted w)) req = Reply (Parsed None resp) ->
  attempt_loop net req delay (S n) r w
  = (after_post req (Reply (Parsed None resp)) w, Ok (RResp (Parsed None resp))).
Proof.
  intros Hn. cbn [attempt_loop]. unfold bind at 1. rewrite try_post_eq, Hn. reflexivity.
Qed.

(** A body that does not parse raises inside the loop. *)
Lemma attempt_loop_step_malformed net req delay n r w :
  net (List.length (posted w)) req = Reply Unparseable ->
  attempt_loop net req delay (S n) r w
  = (after_post req (Reply Unparseable) w, Raise JSONDecodeError).
Proof.
  intros Hn. cbn [attempt_loop]. unfold bind at 1. rewrite try_post_eq, Hn. reflexivity.
Qed.

Lemma app_repeat_S {A} (l : list A) x n : (l ++ [x]) ++ repeat x n = l ++ repeat x (S n).
Proof. rewrite <- app_assoc. reflexivity. Qed.

Lemma repeat_snoc {A} (x : A) n : repeat x n ++ [x] = repeat x (S n).
Proof. induction n; simpl in *; congruence. Qed.

(** [j] failed attempts in a row, whatever follows: the loop is where it
    would be had it started after them. *)
Lemma attempt_loop_skip_failures net req delay :
  forall j n r w,
    ((1 <= j)%nat -> sleep_accepts w delay = true) ->
    (forall i, (i < j)%nat -> is_failure (net (List.length (posted w) + i)%nat req)) ->
    exists w',
      attempt_loop net req delay (j + n) r w
        = attempt_loop net req delay n
            (match j with
             | O => r
             | S m => response_of (net (List.length (posted w) + m)%nat req)
             end) w'
      /\ posted w' = posted w ++ repeat req j
      /\ slept w' = slept w ++ repeat delay j
      /\ same_outputs w w'
      /\ env w' = env w.
Proof.
  induction j as [|j IH]; intros n r w Hsleep Hfail.
  - exists w. simpl. rewrite !app_nil_r. unfold same_outputs. repeat split; reflexivity.
  - assert (Hacc : sleep_accepts w delay = true) by (apply Hsleep; lia).
    destruct (IH (S n) r w (fun _ => Hacc)) as (w1 & Hrun & Hp & Hs & Ho & He).
    { intros i Hi. apply Hfail. lia. }
    assert (Hj : is_failure (net (List.length (posted w1)) req)).
    { rewrite Hp, length_app, repeat_length. apply Hfail. lia. }
    assert (Hs1 : sleep_accepts w1 delay = true).
    { unfold sleep_accepts in *. rewrite He. exact Hacc. }
    exists (after_sleep delay (after_post req (net (List.length (posted w1)) req) w1)).
    replace (S j + n)%nat with (j + S n)%nat by lia.
    rewrite Hrun, (attempt_loop_step_fail _ _ _ _ _ _ Hj Hs1).
    cbn [posted slept env after_sleep after_post].
    rewrite Hp, Hs, length_app, repeat_length, <- !app_assoc, !repeat_snoc.
    repeat split; try reflexivity; try apply Ho. exact He.
Qed.

(** [do_execute_request] by the outcome of its loop. *)
Lemma do_execute_request_eq net code lang token delay n w :
  do_execute_request net code lang token delay n w
  = match attempt_loop net (form_data code lang token) delay (Z.to_nat n) RNone w with
    | (w', Ok (RExc e)) => (w', Raise (RequestError e))
    | (w', Ok RNone) => (w', Raise AttributeError)
    | (w', Ok (RResp Unparseable)) => (w', Raise JSONDecodeError)
    | (w', Ok (RResp (Parsed (Some err) _))) =>
        (w', Raise (VKRequestError (error_code err) (error_msg err)))
    | (w', Ok (RResp (Parsed None (Some v)))) => (w', Ok v)
    | (w', Ok (RResp (Parsed None None))) => (w', Raise (KeyError "response"))
    | (w', Raise e) => (w', Raise e)
    end.
Proof.
  unfold do_execute_request, bind.
  destruct (attempt_loop _ _ _ _ _ w) as [w' [[|e|[|[err|] [v|]]]|e]]; reflexivity.
Qed.

(** C10: with [request_repeat <= 0] the loop body never runs: nothing is
    posted, nothing is slept, the world is left as it was, and the function
    neither returns a value nor raises one of its two request errors; it
    fails with AttributeError on [None.json()]. *)
Theorem nonpositive_repeat_fails_on_None :
  forall net code lang token delay request_repeat w,
    request_repeat <= 0 ->
    do_execute_request net code lang token delay request_repeat w
    = (w, Raise AttributeError).
Proof.
  intros net code lang token delay n w Hn.
  rewrite do_execute_request_eq.
  replace (Z.to_nat n) with O by lia. reflexivity.
Qed.

Lemma attempts_made_S net req base j :
  attempts_made net req base (S j)
  = net base req :: attempts_made net req (S base) j.
Proof.
  unfold attempts_made. cbn [seq map]. rewrite Nat.add_0_r. f_equal.
  rewrite <- seq_shift, map_map. apply map_ext. intros i. f_equal. lia.
Qed.

(** An attempt fails, or carries an answer without the key error, or
    does not parse. *)
Lemma attempt_cases (a : attempt) :
  is_failure a \/ (exists resp, a = Reply (Parsed None resp)) \/ a = Reply Unparseable.
Proof.
  destruct a as [e|[|[err|] resp]]; cbn; eauto.
Qed.

Lemma printed_cons a l : printed (a :: l) = printed [a] ++ printed l.
Proof. cbn. rewrite app_nil_r. reflexivity. Qed.

Lemma stderr_after_post req a w :
  stderr (after_post req a w) = stderr w ++ printed [a].
Proof. destruct a; cbn; rewrite ?app_nil_r; reflexivity. Qed.

(** The whole trace of the loop.  It makes [j] attempts and sleeps after the
    first [s] of them, which are the ones that failed; it prints a line for
    each exception; and either all [n] attempts failed, or attempt [s] is the
    first that did not fail and is the last one made, or attempt [s] failed
    and time.sleep turned the delay down. *)
Lemma attempt_loop_trace net req delay :
  forall n r w w' res,
    attempt_loop net req delay n r w = (w', res) ->
    let base := List.length (posted w) in
    exists j s,
      (j <= n)%nat
      /\ posted w' = posted w ++ repeat req j
      /\ slept w' = slept w ++ repeat delay s
      /\ stderr w' = stderr w ++ printed (attempts_made net req base j)
      /\ same_outputs w w'
      /\ env w' = env w
      /\ (forall i, (i < s)%nat -> is_failure (net (base + i)%nat req))
      /\ ((s = j /\ j = n
           /\ res = Ok (match n with
                        | O => r
                        | S m => response_of (net (base + m)%nat req)
                        end))
          \/ (S s = j /\ ~ is_failure (net (base + s)%nat req)
              /\ res = left_with (net (base + s)%nat req))
          \/ (S s = j /\ is_failure (net (base + s)%nat req)
              /\ sleep_accepts w delay = false
              /\ res = Raise SleepError)).
Proof.
  induction n as [|n IH]; intros r w w' res Hrun base.
  - exists O, O. cbn in Hrun. injection Hrun as <- <-. cbn. rewrite !app_nil_r.
    unfold same_outputs.
    refine (conj _ (conj eq_refl (conj eq_refl (conj eq_refl
             (conj _ (conj eq_refl (conj _ _)))))));
      [lia | auto | intros i Hi; lia | left; auto].
  - destruct (attempt_cases (net base req)) as [Hfail|[(resp & Hn)|Hn]].
    + destruct (sleep_accepts w delay) eqn:Hsleep.
      * rewrite attempt_loop_step_fail in Hrun by assumption.
        apply IH in Hrun.
        destruct Hrun as (j & s & Hj & Hp & Hsl & He & Ho & Hv & Hf & Hend).
        cbn [posted slept stderr env after_sleep] in Hp, Hsl, He, Hv, Hf, Hend.
        cbn [slept env after_post] in Hsl, Hv.
        rewrite stderr_after_post in He. cbn [posted after_post] in Hp, He, Hf, Hend.
        rewrite length_app in He, Hf, Hend. cbn [List.length] in He, Hf, Hend.
        rewrite Nat.add_1_r in He, Hf, Hend. fold base in He, Hf, Hend.
        exists (S j), (S s). rewrite attempts_made_S.
        split; [lia|].
        split; [rewrite Hp, <- app_assoc; reflexivity|].
        split; [rewrite Hsl, <- app_assoc; reflexivity|].
        split; [rewrite He, <- app_assoc, <- printed_cons; reflexivity|].
        split; [exact Ho|].
        split; [exact Hv|].
        split.
        -- intros [|i] Hi; [rewrite Nat.add_0_r; exact Hfail|].
           replace (base + S i)%nat with (S base + i)%nat by lia. apply Hf. lia.
        -- destruct Hend as [(Hs & Hjn & Hres)|[(Hs & Hnf & Hres)|(Hs & Hnf & Hno & Hres)]].
           ++ left. split; [lia|]. split; [lia|]. rewrite Hres. f_equal.
              destruct n as [|m]; [rewrite Nat.add_0_r; reflexivity|].
              replace (base + S m)%nat with (S base + m)%nat by lia. reflexivity.
           ++ right. left. split; [lia|].
              replace (base + S s)%nat with (S base + s)%nat by lia. auto.
           ++ exfalso. unfold sleep_accepts in Hno, Hsleep.
              cbn [env after_sleep after_post] in Hno. congruence.
      * rewrite attempt_loop_step_refused in Hrun by assumption.
        injection Hrun as <- <-. exists 1%nat, O.
        rewrite attempts_made_S. fold base. rewrite Nat.add_0_r.
        rewrite stderr_after_post. cbn [posted slept env after_post repeat attempts_made
                                        seq map printed flat_map].
        rewrite !app_nil_r. unfold same_outputs.
        refine (conj _ (conj eq_refl (conj eq_refl (conj _
                 (conj _ (conj eq_refl (conj _ _)))))));
          [lia | | cbn; auto | intros i Hi; lia | right; right; auto].
        destruct (net base req); reflexivity.
    + rewrite (attempt_loop_step_ok _ _ _ _ _ _ _ Hn) in Hrun.
      injection Hrun as <- <-. exists 1%nat, O.
      rewrite attempts_made_S. fold base. rewrite Nat.add_0_r, Hn. cbn.
      rewrite !app_nil_r. unfold same_outputs.
      refine (conj _ (conj eq_refl (conj eq_refl (conj eq_refl
               (conj _ (conj eq_refl (conj _ _)))))));
        [lia | auto | intros i Hi; lia | right; left; auto].
    + rewrite (attempt_loop_step_malformed _ _ _ _ _ _ Hn) in Hrun.
      injection Hrun as <- <-. exists 1%nat, O.
      rewrite attempts_made_S. fold base. rewrite Nat.add_0_r, Hn. cbn.
      rewrite !app_nil_r. unfold same_outputs.
      refine (conj _ (conj eq_refl (conj eq_refl (conj eq_refl
               (conj _ (conj eq_refl (conj _ _)))))));
        [lia | auto | intros i Hi; lia | right; left; auto].
Qed.

(** The same trace for [do_execute_request], with the loop's result still to
    be looked at. *)
Lemma do_execute_request_trace net code lang token delay n w :
  let req := form_data code lang token in
  let base := List.length (posted w) in
  let r := do_execute_request net code lang token delay n w in
  exists j s,
    (j <= Z.to_nat n)%nat
    /\ posted (fst r) = posted w ++ repeat req j
    /\ slept (fst r) = slept w ++ repeat delay s
    /\ stderr (fst r) = stderr w ++ printed (attempts_made net req base j)
    /\ same_outputs w (fst r)
    /\ env (fst r) = env w
    /\ (forall i, (i < s)%nat -> is_failure (net (base + i)%nat req))
    /\ ((s = j /\ j = Z.to_nat n
         /\ snd r = match j with
                    | O => Raise AttributeError
                    | S m => Raise (failure_exn (net (base + m)%nat req))
                    end)
        \/ (S s = j /\ ~ is_failure (net (base + s)%nat req)
            /\ snd r = match net (base + s)%nat req with
                       | Reply (Parsed None (Some v)) => Ok v
                       | Reply (Parsed None None) => Raise (KeyError "response")
                       | _ => Raise JSONDecodeError
                       end)
        \/ (S s = j /\ is_failure (net (base + s)%nat req)
            /\ sleep_accepts w delay = false
            /\ snd r = Raise SleepError)).
Proof.
  intros req base r. subst r. rewrite do_execute_request_eq. fold req.
  destruct (attempt_loop net req delay (Z.to_nat n) RNone w) as [w' res] eqn:Hloop.
  apply attempt_loop_trace in Hloop. fold base in Hloop.
  destruct Hloop as (j & s & Hj & Hp & Hsl & He & Ho & Hv & Hf & Hend).
  exists j, s.
  assert (Hw : fst (match res with
                    | Ok (RExc e) => (w', Raise (RequestError e))
                    | Ok RNone => (w', Raise AttributeError)
                    | Ok (RResp Unparseable) => (w', Raise JSONDecodeError)
                    | Ok (RResp (Parsed (Some err) _)) =>
                        (w', Raise (VKRequestError (error_code err) (error_msg err)))
                    | Ok (RResp (Parsed None (Some v))) => (w', Ok v)
                    | Ok (RResp (Parsed None None)) => (w', Raise (KeyError "response"))
                    | Raise e => (w', @Raise payload e)
                    end) = w').
  { destruct res as [[|e|[|[err|] [v|]]]|e]; reflexivity. }
  rewrite Hw.
  refine (conj Hj (conj Hp (conj Hsl (conj He (conj Ho (conj Hv (conj Hf _))))))).
  destruct Hend as [(Hs & Hjn & ->)|[(Hs & Hnf & ->)|(Hs & Hnf & Hno & ->)]].
  - left. split; [exact Hs|]. split; [exact Hjn|].
    rewrite <- Hjn. destruct j as [|m]; [reflexivity|].
    assert (Hm : is_failure (net (base + m)%nat req)) by (apply Hf; lia).
    destruct (net (base + m)%nat req) as [e|[|[err|] resp]]; try contradiction;
      reflexivity.
  - right. left. split; [exact Hs|]. split; [exact Hnf|].
    destruct (net (base + s)%nat req) as [e|[|[err|] [v|]]]; cbn in Hnf |- *;
      try reflexivity; exfalso; apply Hnf; exact I.
  - right. right. auto.
Qed.

(** What every call has in common; a value it returns was sent by the
    network in answer to this request. *)
Lemma do_execute_request_inv net code lang token delay n w w' res :
  do_execute_request net code lang token delay n w = (w', res) ->
  exists j,
    (j <= Z.to_nat n)%nat /\ (1 <= n -> (0 < j)%nat)
    /\ posted w' = posted w ++ repeat (form_data code lang token) j
    /\ same_outputs w w'
    /\ forall v, res = Ok v ->
         exists m, net (List.length (posted w) + m)%nat (form_data code lang token)
                   = Reply (Parsed None (Some v)).
Proof.
  intros Hrun.
  destruct (do_execute_request_trace net code lang token delay n w)
    as (j & s & Hj & Hp & _ & _ & Ho & _ & _ & Hend).
  rewrite Hrun in Hp, Ho, Hend. cbn [fst snd] in Hp, Ho, Hend.
  exists j. refine (conj Hj (conj _ (conj Hp (conj Ho _)))).
  - intros Hn. destruct Hend as [(_ & Hjn & _)|[(Hs & _)|(Hs & _)]]; lia.
  - intros v ->.
    destruct Hend as [(_ & _ & Hres)|[(Hs & _ & Hres)|(_ & _ & _ & Hres)]].
    + destruct j; discriminate.
    + exists s.
      destruct (net _ _) as [e|[|[err|] [v'|]]]; try discriminate. congruence.
    + discriminate.
Qed.

(** The platform is the same after a call. *)
Lemma do_execute_request_env net code lang token delay n w :
  env (fst (do_execute_request net code lang token delay n w)) = env w.
Proof.
  destruct (do_execute_request_trace net code lang token delay n w)
    as (j & s & _ & _ & _ & _ & _ & Hv & _). exact Hv.
Qed.

(** A call depends on the world it starts in only through the number of
    requests posted so far and through the platform: in two worlds that agree
    on both, it ends alike and adds the same requests, sleeps and lines. *)
Lemma attempt_loop_frame net req delay :
  forall n r w w0,
    List.length (posted w0) = List.length (posted w) ->
    env w0 = env w ->
    snd (attempt_loop net req delay n r w0) = snd (attempt_loop net req delay n r w)
    /\ exists newp news newe,
         posted (fst (attempt_loop net req delay n r w)) = posted w ++ newp
         /\ posted (fst (attempt_loop net req delay n r w0)) = posted w0 ++ newp
         /\ slept (fst (attempt_loop net req delay n r w)) = slept w ++ news
         /\ slept (fst (attempt_loop net req delay n r w0)) = slept w0 ++ news
         /\ stderr (fst (attempt_loop net req delay n r w)) = stderr w ++ newe
         /\ stderr (fst (attempt_loop net req delay n r w0)) = stderr w0 ++ newe.
Proof.
  induction n as [|n IH]; intros r w w0 Hlen Henv.
  - cbn. split; [reflexivity|]. exists [], [], []. rewrite !app_nil_r. auto 6.
  - assert (Hs0 : sleep_accepts w0 delay = sleep_accepts w delay).
    { unfold sleep_accepts. rewrite Henv. reflexivity. }
    destruct (attempt_cases (net (List.length (posted w)) req))
      as [Hfail|[(resp & Hn)|Hn]].
    + destruct (sleep_accepts w delay) eqn:Hsleep.
      * rewrite (attempt_loop_step_fail net req delay n r w) by assumption.
        rewrite (attempt_loop_step_fail net req delay n r w0)
          by (rewrite ?Hlen; assumption).
        rewrite Hlen.
        set (a := net (List.length (posted w)) req).
        destruct (IH (response_of a) (after_sleep delay (after_post req a w))
                    (after_sleep delay (after_post req a w0)))
          as (Hres & newp & news & newe & H1 & H2 & H3 & H4 & H5 & H6).
        { cbn [posted after_sleep after_post]. rewrite !length_app, Hlen. reflexivity. }
        { cbn [env after_sleep after_post]. exact Henv. }
        split; [exact Hres|].
        cbn [posted slept stderr after_sleep] in H1, H2, H3, H4, H5, H6.
        rewrite !stderr_after_post in *.
        cbn [posted slept after_post] in H1, H2, H3, H4.
        exists (req :: newp), (delay :: news), (printed [a] ++ newe).
        rewrite H1, H2, H3, H4, H5, H6, <- !app_assoc. auto 6.
      * rewrite (attempt_loop_step_refused net req delay n r w) by assumption.
        rewrite (attempt_loop_step_refused net req delay n r w0)
          by (rewrite ?Hlen; assumption).
        rewrite Hlen. split; [reflexivity|].
        exists [req], [], (printed [net (List.length (posted w)) req]).
        cbn [fst]. rewrite !stderr_after_post. cbn [posted slept after_post].
        rewrite !app_nil_r. auto 6.
    + rewrite (attempt_loop_step_ok _ _ _ _ _ w _ Hn).
      rewrite (attempt_loop_step_ok _ _ _ _ _ w0 resp) by (rewrite Hlen; exact Hn).
      split; [reflexivity|]. exists [req], [], [].
      cbn. rewrite !app_nil_r. auto 6.
    + rewrite (attempt_loop_step_malformed _ _ _ _ _ w Hn).
      rewrite (attempt_loop_step_malformed _ _ _ _ _ w0) by (rewrite Hlen; exact Hn).
      split; [reflexivity|]. exists [req], [], [].
      cbn. rewrite !app_nil_r. auto 6.
Qed.

Lemma do_execute_request_frame net code lang token delay n w w0 :
  List.length (posted w0) = List.length (posted w) ->
  env w0 = env w ->
  let r := do_execute_request net code lang token delay n w in
  let r0 := do_execute_request net code lang token delay n w0 in
  snd r0 = snd r
  /\ exists newp news newe,
       posted (fst r) = posted w ++ newp /\ posted (fst r0) = posted w0 ++ newp
       /\ slept (fst r) = slept w ++ news /\ slept (fst r0) = slept w0 ++ news
       /\ stderr (fst r) = stderr w ++ newe /\ stderr (fst r0) = stderr w0 ++ newe.
Proof.
  intros Hlen Henv r r0. subst r r0. rewrite !do_execute_request_eq.
  destruct (attempt_loop_frame net (form_data code lang token) delay (Z.to_nat n)
              RNone w w0 Hlen Henv) as (Hres & newp & news & newe & H).
  destruct (attempt_loop _ _ _ _ _ w) as [w1 res1].
  destruct (attempt_loop _ _ _ _ _ w0) as [w2 res2].
  cbn [fst snd] in Hres, H. subst res2.
  split.
  - destruct res1 as [[|e|[|[err|] [v|]]]|e]; reflexivity.
  - exists newp, news, newe.
    destruct res1 as [[|e|[|[err|] [v|]]]|e]; exact H.
Qed.

(** C3: for [request_repeat >= 1], (a) when every attempt fails, by an
    exception of requests.post or by an answer with the key error, exactly
    [request_repeat] requests are posted and the failure of the last one is
    raised: the exception itself, or the error built from the answer's
    error_code and error_msg; (b) when the first attempt that does not fail is
    attempt [k <= request_repeat] and it carries a value under the key
    response, exactly [k] requests are posted and that value is returned.
    The loop sleeps after each failed attempt, and where an attempt fails
    the delay is one that time.sleep takes. *)
Theorem retry_bound :
  forall net code lang token delay request_repeat w,
    1 <= request_repeat ->
    let req := form_data code lang token in
    let base := List.length (posted w) in
    let n := Z.to_nat request_repeat in
    ((forall i, (i < n)%nat -> is_failure (net (base + i)%nat req)) ->
     sleep_accepts w delay = true ->
     exists w',
       do_execute_request net code lang token delay request_repeat w
       = (w', Raise (failure_exn (net (base + (n - 1))%nat req)))
       /\ posted w' = posted w ++ repeat req n
       /\ slept w' = slept w ++ repeat delay n)
    /\
    (forall k v,
       (1 <= k <= n)%nat ->
       ((2 <= k)%nat -> sleep_accepts w delay = true) ->
       (forall i, (i < k - 1)%nat -> is_failure (net (base + i)%nat req)) ->
       net (base + (k - 1))%nat req = Reply (Parsed None (Some v)) ->
       exists w',
         do_execute_request net code lang token delay request_repeat w = (w', Ok v)
         /\ posted w' = posted w ++ repeat req k
         /\ slept w' = slept w ++ repeat delay (k - 1)).
Proof.
  intros net code lang token delay request_repeat w Hn req base n. split.
  - intros Hfail Hsleep.
    destruct (attempt_loop_skip_failures net req delay n O RNone w
                (fun _ => Hsleep) Hfail)
      as (w1 & Hrun & Hp & Hs & _).
    exists w1. rewrite do_execute_request_eq. fold req. fold n.
    rewrite Nat.add_0_r in Hrun. rewrite Hrun. cbn [attempt_loop]. unfold ret.
    destruct n as [|m] eqn:En; [lia|].
    replace (S m - 1)%nat with m by lia. fold base.
    specialize (Hfail m ltac:(lia)).
    destruct (net (base + m)%nat req) as [e|[|[err|] resp]]; try contradiction; auto.
  - intros k v Hk Hsleep Hfail Hok.
    destruct (attempt_loop_skip_failures net req delay (k - 1) (S (n - k)) RNone w
                (fun H => Hsleep ltac:(lia)) Hfail)
      as (w1 & Hrun & Hp & Hs & _).
    replace (k - 1 + S (n - k))%nat with n in Hrun by lia.
    assert (Hlen : List.length (posted w1) = (base + (k - 1))%nat).
    { rewrite Hp, length_app, repeat_length. reflexivity. }
    rewrite attempt_loop_step_ok with (resp := Some v) in Hrun
      by (rewrite Hlen; exact Hok).
    eexists. rewrite do_execute_request_eq. fold req. fold n. rewrite Hrun.
    split; [reflexivity|]. cbn [posted slept after_post].
    rewrite Hp, Hs, <- app_assoc, repeat_snoc.
    replace (S (k - 1)) with k by lia. auto.
Qed.

(** C7, amended: a body that does not parse is not retried.  When attempt
    [k] is the first that does not fail and its body does not parse, the
    decoding error leaves [do_execute_request] at that attempt: exactly [k]
    requests were posted, and the loop slept only after the [k - 1] failed
    ones, the delay being, when there are such, one that time.sleep takes. *)
Theorem malformed_body_ends_the_attempts :
  forall net code lang token delay request_repeat w k,
    let req := form_data code lang token in
    let base := List.length (posted w) in
    (1 <= k <= Z.to_nat request_repeat)%nat ->
    ((2 <= k)%nat -> sleep_accepts w delay = true) ->
    (forall i, (i < k - 1)%nat -> is_failure (net (base + i)%nat req)) ->
    net (base + (k - 1))%nat req = Reply Unparseable ->
    exists w',
      do_execute_request net code lang token delay request_repeat w
      = (w', Raise JSONDecodeError)
      /\ posted w' = posted w ++ repeat req k
      /\ slept w' = slept w ++ repeat delay (k - 1).
Proof.
  intros net code lang token delay request_repeat w k req base Hk Hsleep Hfail Hbad.
  set (n := Z.to_nat request_repeat) in *.
  destruct (attempt_loop_skip_failures net req delay (k - 1) (S (n - k)) RNone w
              (fun H => Hsleep ltac:(lia)) Hfail)
    as (w1 & Hrun & Hp & Hs & _).
  replace (k - 1 + S (n - k))%nat with n in Hrun by lia.
  assert (Hlen : List.length (posted w1) = (base + (k - 1))%nat).
  { rewrite Hp, length_app, repeat_length. reflexivity. }
  rewrite attempt_loop_step_malformed in Hrun by (rewrite Hlen; exact Hbad).
  eexists. rewrite do_execute_request_eq. fold req. fold n. rewrite Hrun.
  split; [reflexivity|]. cbn [posted slept after_post].
  rewrite Hp, Hs, <- app_assoc, repeat_snoc.
  replace (S (k - 1)) with k by lia. auto.
Qed.

(** Witness of C10: a call with [request_repeat = 0]. *)
Lemma nonpositive_repeat_witness :
  do_execute_request net_always_down "return 1;" "ru" "token" 0.5%float 0 empty_world
  = (empty_world, Raise AttributeError).
Proof. apply nonpositive_repeat_fails_on_None. lia. Defined.

(** Witness of C3: three attempts against a network that is down, and a
    network that answers at the third attempt. *)
Lemma retry_bound_witness :
  (exists w',
     do_execute_request net_always_down "return 1;" "ru" "token" 0.5%float 3 empty_world
     = (w', Raise (RequestError ConnectTimeout))
     /\ posted w' = repeat (form_data "return 1;" "ru" "token") 3
     /\ slept w' = [0.5%float; 0.5%float; 0.5%float])
  /\ (exists w',
        do_execute_request net_up_at_third "return 1;" "ru" "token" 0.5%float 10 empty_world
        = (w', Ok (summary_payload [example_user] [] []))
        /\ posted w' = repeat (form_data "return 1;" "ru" "token") 3
        /\ slept w' = [0.5%float; 0.5%float]).
Proof.
  split.
  - apply (proj1 (retry_bound net_always_down "return 1;" "ru" "token" 0.5%float 3
                    empty_world ltac:(lia))).
    + intros i Hi. exact I.
    + reflexivity.
  - apply (proj2 (retry_bound net_up_at_third "return 1;" "ru" "token" 0.5%float 10
                    empty_world ltac:(lia)) 3%nat (summary_payload [example_user] [] [])).
    + simpl. lia.
    + intros _. reflexivity.
    + intros i Hi. destruct i as [|[|i]]; [exact I | exact I | simpl in Hi; lia].
    + reflexivity.
Defined.

(** Counterexample to C7 as stated: the first body does not parse and the
    network is down afterwards; of the two attempts allowed, one is made. *)
Lemma malformed_body_is_not_retried : ~ malformed_body_is_retried.
Proof.
  intros H.
  specialize (H net_garbled_then_down "return 1;"%string "ru"%string "token"%string
                0.5%float 2 empty_world ltac:(lia)).
  cbv zeta in H.
  assert (Hall : forall i, (i < Z.to_nat 2)%nat ->
            is_failure (net_garbled_then_down (List.length (posted empty_world) + i)%nat
                          (form_data "return 1;" "ru" "token"))
            \/ net_garbled_then_down (List.length (posted empty_world) + i)%nat
                 (form_data "return 1;" "ru" "token") = Reply Unparseable).
  { intros i Hi. destruct i as [|i]; [right; reflexivity|left; exact I]. }
  specialize (H Hall). vm_compute in H. discriminate H.
Qed.

(** Witness of C7, amended: the first body does not parse, the second
    attempt would have succeeded. *)
Lemma malformed_body_witness :
  exists w',
    do_execute_request net_garbled_first "return 1;" "ru" "token" 0.5%float 10 empty_world
    = (w', Raise JSONDecodeError)
    /\ posted w' = [form_data "return 1;" "ru" "token"]
    /\ slept w' = [].
Proof.
  apply (malformed_body_ends_the_attempts net_garbled_first "return 1;" "ru" "token"
           0.5%float 10 empty_world 1%nat).
  - simpl. lia.
  - intros _. reflexivity.
  - intros i Hi. simpl in Hi. lia.
  - reflexivity.
Defined.

(** ** Pagination in the scripts *)

Section Pagination.
Variable l : list Z.
Variable step : Z.
Hypothesis step_pos : 1 <= step.

(** A window of [step] items followed by what lies behind it. *)
Lemma window_then_rest i :
  0 <= i ->
  items (paging_source l step i) ++ skipn (Z.to_nat (i + step)) l = skipn (Z.to_nat i) l.
Proof.
  intros Hi. cbn [items paging_source].
  replace (Z.to_nat (i + step)) with (Z.to_nat step + Z.to_nat i)%nat by lia.
  rewrite <- skipn_skipn. apply firstn_skipn.
Qed.

(** The loop, entered at offset [i] with enough fuel, ends and has fetched
    what lies behind [i], in pages whose number is the rounded-up quotient. *)
Lemma paging_loop_source :
  forall fuel i acc pages,
    0 <= i ->
    (Z.to_nat (total l - i) <= fuel)%nat ->
    exists rest,
      paging_loop (paging_source l step) step (total l) fuel i acc pages
      = Some (acc ++ skipn (Z.to_nat i) l, pages ++ rest)
      /\ List.concat (map items rest) = skipn (Z.to_nat i) l
      /\ List.length rest = Z.to_nat ((total l - i + step - 1) / step).
Proof.
  unfold total.
  induction fuel as [|fuel IH]; intros i acc pages Hi Hfuel.
  - exists []. cbn [paging_loop].
    destruct (i <? _) eqn:Hlt; [apply Z.ltb_lt in Hlt; lia|].
    rewrite skipn_all2 by lia. rewrite !app_nil_r.
    repeat split.
    assert ((Z.of_nat (List.length l) - i + step - 1) / step < 1)
      by (apply Z.div_lt_upper_bound; lia).
    cbn [List.length]. lia.
  - cbn [paging_loop]. destruct (i <? _) eqn:Hlt.
    + apply Z.ltb_lt in Hlt.
      destruct (IH (i + step) (acc ++ items (paging_source l step i))
                  (pages ++ [paging_source l step i])) as (rest & Hrun & Hcat & Hlen);
        [lia | lia |].
      exists (paging_source l step i :: rest). rewrite Hrun.
      rewrite <- !app_assoc, window_then_rest by lia. cbn [app].
      repeat split.
      * cbn [map List.concat]. rewrite Hcat. apply window_then_rest. lia.
      * cbn [List.length]. rewrite Hlen.
        replace (Z.of_nat (List.length l) - i + step - 1)
          with (Z.of_nat (List.length l) - (i + step) + step - 1 + 1 * step) by lia.
        rewrite Z.div_add by lia.
        assert (0 <= (Z.of_nat (List.length l) - (i + step) + step - 1) / step)
          by (apply Z.div_pos; lia).
        lia.
    + apply Z.ltb_ge in Hlt. exists [].
      rewrite skipn_all2 by lia. rewrite !app_nil_r.
      repeat split.
      assert ((Z.of_nat (List.length l) - i + step - 1) / step < 1)
        by (apply Z.div_lt_upper_bound; lia).
      cbn [List.length]. lia.
Qed.

(** The first call and the loop together. *)
Lemma fetch_all_source fuel :
  (List.length l <= fuel)%nat ->
  exists pages,
    fetch_all (paging_source l) step fuel = Some ({| count := total l; items := l |}, pages)
    /\ pages_cover l (Z.max 1 (ceil_div (total l) step)) pages.
Proof.
  intros Hfuel. unfold fetch_all.
  destruct (paging_loop_source fuel step (items (paging_source l step 0))
              [paging_source l step 0]) as (rest & Hrun & Hcat & Hlen);
    [lia | unfold total; lia |].
  cbn [count paging_source] in *. fold (total l). rewrite Hrun.
  pose proof (window_then_rest 0 ltac:(lia)) as Hw. cbn [Z.add] in Hw.
  cbn [paging_source items] in Hw. cbn [Z.to_nat skipn] in Hw.
  exists ([paging_source l step 0] ++ rest). split.
  - cbn [paging_source items Z.to_nat skipn]. rewrite Hw. reflexivity.
  - unfold pages_cover, ceil_div. split.
    + cbn [app map List.concat]. rewrite Hcat. exact Hw.
    + cbn [app List.length]. rewrite Hlen.
      replace (total l - step + step - 1) with (total l - 1) by lia.
      destruct (Z.eq_dec (total l) 0) as [E|E].
      * rewrite E. replace ((0 - 1) / step) with (-1).
        2:{ apply Z.div_unique with (r := step - 1); lia. }
        rewrite Z.div_small by lia. lia.
      * assert (0 < total l) by (unfold total in *; lia).
        replace (total l + step - 1) with (total l - 1 + 1 * step) by lia.
        rewrite Z.div_add by lia.
        assert (0 <= (total l - 1) / step) by (apply Z.div_pos; lia).
        lia.
Qed.

End Pagination.

(** C2, amended: for every listing of [total >= 0] items and every page size
    [>= 1], each of the three pagination loops (groups and friends in the
    summary script, friends in the group script), given fuel for [total]
    steps, ends; the pages it fetched, put end to end, are exactly the
    listing, so that no item is fetched twice or left out at a page boundary
    and a last page shorter than the page size is taken whole; and it fetches
    ceil(total / pageSize) pages when [total >= 1] and one page, the empty
    answer to the first call, when [total = 0]. *)
Theorem pagination_covers_every_item :
  forall api fuel user_id group_list friend_list group_step friend_step friend_load_step,
    (forall uid, groups_get api uid = paging_source group_list) ->
    (forall uid, friends_get api uid = paging_source friend_list) ->
    1 <= group_step ->
    1 <= friend_step ->
    1 <= friend_load_step ->
    (List.length group_list <= fuel)%nat ->
    (List.length friend_list <= fuel)%nat ->
    let uid := first_id (users_get api user_id) in
    let all_groups := {| count := total group_list; items := group_list |} in
    let all_friends := {| count := total friend_list; items := friend_list |} in
    (exists pages,
       fetch_all (groups_get api uid) group_step fuel = Some (all_groups, pages)
       /\ pages_cover group_list
            (Z.max 1 (ceil_div (total group_list) group_step)) pages)
    /\ (exists pages,
          fetch_all (friends_get api uid) friend_step fuel = Some (all_friends, pages)
          /\ pages_cover friend_list
               (Z.max 1 (ceil_div (total friend_list) friend_step)) pages)
    /\ get_main_user_info api fuel user_id group_step friend_step
       = Some {| p_user := Some (users_get api user_id);
                 p_groups := Some all_groups; p_friends := Some all_friends;
                 p_special_group := None; p_friends_in_group := None;
                 p_group := None |}
    /\ (exists pages,
          load_friends api fuel user_id friend_load_step = Some (all_friends, pages)
          /\ pages_cover friend_list
               (Z.max 1 (ceil_div (total friend_list) friend_load_step)) pages).
Proof.
  intros api fuel user_id group_list friend_list group_step friend_step friend_load_step
    Hgroups Hfriends Hg Hf Hl Hfuel_g Hfuel_f uid all_groups all_friends.
  destruct (fetch_all_source group_list group_step Hg fuel Hfuel_g) as (gp & Hgp & Hgc).
  destruct (fetch_all_source friend_list friend_step Hf fuel Hfuel_f) as (fp & Hfp & Hfc).
  destruct (fetch_all_source friend_list friend_load_step Hl fuel Hfuel_f)
    as (lp & Hlp & Hlc).
  repeat split.
  - exists gp. rewrite Hgroups. auto.
  - exists fp. rewrite Hfriends. auto.
  - unfold get_main_user_info. rewrite Hgroups, Hfriends, Hgp, Hfp. reflexivity.
  - exists lp. unfold load_friends. rewrite Hfriends. auto.
Qed.

(** Witness of C2, amended: the example service, two groups fetched one per
    page and three friends fetched two per page. *)
Lemma pagination_witness :
  get_main_user_info example_api 10 "1" 1 2
  = Some (summary_payload [example_user] [101; 102] [11; 12; 13]).
Proof.
  apply (proj1 (proj2 (proj2
    (pagination_covers_every_item example_api 10 "1" [101; 102] [11; 12; 13] 1 2 2
       (fun _ => eq_refl) (fun _ => eq_refl) ltac:(lia) ltac:(lia) ltac:(lia)
       ltac:(simpl; lia) ltac:(simpl; lia))))).
Defined.

(** Counterexample to C2 as stated: a listing without items.  The first call
    is made all the same, so one page is fetched where the quotient is 0. *)
Lemma empty_listing_takes_one_page : ~ fetches_ceil_pages.
Proof.
  intros H.
  destruct (H [] 1 0%nat _ _ ltac:(lia) eq_refl) as [_ Hn].
  vm_compute in Hn. discriminate Hn.
Qed.

(** ** Counting the members among the friends *)

(** [split] yields one piece more than there are separators. *)
Lemma split_on_length c s : List.length (split_on c s) = S (count_char c s).
Proof.
  induction s as [|a s IH]; [reflexivity|].
  cbn [split_on count_char]. destruct (Ascii.eqb a c).
  - cbn [List.length]. rewrite IH. reflexivity.
  - destruct (split_on c s); cbn [List.length] in *; lia.
Qed.

Lemma join_comma_cons h t :
  join_comma (h :: t)
  = match t with
    | [] => h
    | _ => (h ++ String "," (join_comma t))%string
    end.
Proof. destruct t; reflexivity. Qed.

(** Splitting at a character and joining with commas replaces the
    character by a comma. *)
Lemma join_split c s : join_comma (split_on c s) = subst_char c "," s.
Proof.
  induction s as [|a s IH]; [reflexivity|].
  cbn [split_on subst_char]. destruct (Ascii.eqb a c).
  - rewrite join_comma_cons, IH.
    destruct (split_on c s) eqn:E; [|reflexivity].
    pose proof (split_on_length c s) as H. rewrite E in H. discriminate.
  - rewrite <- IH. destruct (split_on c s) as [|h t]; [reflexivity|].
    rewrite !join_comma_cons. destruct t; reflexivity.
Qed.

Lemma count_char_app c s1 s2 :
  count_char c (s1 ++ s2)%string = (count_char c s1 + count_char c s2)%nat.
Proof. induction s1 as [|a s1 IH]; cbn; [reflexivity|]. rewrite IH. lia. Qed.

Lemma count_one_subst s : count_char "1" (subst_char "0" "," s) = count_char "1" s.
Proof.
  induction s as [|a s IH]; [reflexivity|].
  cbn [subst_char count_char]. rewrite IH.
  destruct (Ascii.eqb a "0") eqn:E0; [|reflexivity].
  apply Ascii.eqb_eq in E0. subst a. reflexivity.
Qed.

(** The digits 1 of the joined flags are the flags that are set. *)
Lemma count_one_flags flags :
  count_char "1" (join_comma (map flag_str flags)) = List.length (filter (fun b => b) flags).
Proof.
  induction flags as [|b flags IH]; [reflexivity|].
  cbn [map]. rewrite join_comma_cons.
  destruct flags as [|b' flags'].
  - destruct b; reflexivity.
  - remember (b' :: flags') as rest. destruct (map flag_str rest) eqn:E.
    + subst rest. discriminate.
    + rewrite <- E in *. rewrite count_char_app. cbn [count_char filter].
      rewrite IH. destruct b; reflexivity.
Qed.

(** The expression counts the flags that are set. *)
Lemma count_flags_spec flags :
  count_flags flags = Z.of_nat (List.length (filter (fun b => b) flags)).
Proof.
  unfold count_flags.
  rewrite split_on_length, join_split, count_one_subst, count_one_flags. lia.
Qed.

(** The object [friends] has no field length. *)
Lemma field_length_null (o : page) : field o "length" = VNull.
Proof. reflexivity. Qed.

(** With a null bound the loop is not entered. *)
Lemma member_loop_null api group_id step friends fuel slice sum :
  member_loop api group_id step VNull friends fuel slice sum = Some sum.
Proof. destruct fuel; reflexivity. Qed.

(** With the bound the script computes, no slice is ever examined. *)
Lemma friends_in_group_sum_zero api fuel user_id group_id load_step member_step sum :
  friends_in_group_sum api fuel user_id group_id load_step member_step = Some sum ->
  sum = 0.
Proof.
  unfold friends_in_group_sum.
  destruct (load_friends api fuel user_id load_step) as [[friends pages]|]; [|discriminate].
  rewrite field_length_null, member_loop_null. congruence.
Qed.

(** A slice that starts inside the array is a window of at most [step]
    items. *)
Lemma js_slice_window (a : list Z) slice step :
  0 <= slice < Z.of_nat (List.length a) ->
  1 <= step ->
  js_slice a slice (slice + step) = firstn (Z.to_nat step) (skipn (Z.to_nat slice) a).
Proof.
  intros Hs Hstep. unfold js_slice, js_index.
  destruct (slice <? 0) eqn:E1; [apply Z.ltb_lt in E1; lia|].
  destruct (slice + step <? 0) eqn:E2; [apply Z.ltb_lt in E2; lia|].
  rewrite (Z.min_l slice) by lia.
  destruct (Z_le_gt_dec (slice + step) (Z.of_nat (List.length a))) as [Hle|Hgt].
  - rewrite Z.min_l by lia. f_equal. lia.
  - rewrite Z.min_r by lia.
    rewrite !firstn_all2; [reflexivity| |]; rewrite length_skipn; lia.
Qed.

Lemma filter_flags {A} (member : A -> bool) ids :
  List.length (filter (fun b : bool => b) (map member ids))
  = List.length (filter member ids).
Proof.
  induction ids as [|x ids IH]; [reflexivity|].
  cbn [map filter]. destruct (member x); cbn [List.length]; rewrite IH; reflexivity.
Qed.

(** Had the bound been the length of [friends.items], the loop would count
    exactly the friends that are members, for every slice size. *)
Lemma member_loop_with_items_length api group_id step friends member :
  1 <= step ->
  (forall ids, groups_isMember api group_id ids = map member ids) ->
  forall fuel slice sum,
    0 <= slice ->
    (Z.to_nat (Z.of_nat (List.length friends) - slice) <= fuel)%nat ->
    member_loop api group_id step (VNum (Z.of_nat (List.length friends))) friends
      fuel slice sum
    = Some (sum + Z.of_nat (List.length (filter member (skipn (Z.to_nat slice) friends)))).
Proof.
  intros Hstep Hmem.
  induction fuel as [|fuel IH]; intros slice sum Hs Hfuel; cbn [member_loop lt_value].
  - destruct (slice <? _) eqn:E; [apply Z.ltb_lt in E; lia|].
    apply Z.ltb_ge in E. rewrite skipn_all2 by lia. cbn. f_equal. lia.
  - destruct (slice <? _) eqn:E.
    + apply Z.ltb_lt in E.
      rewrite IH by lia. f_equal.
      rewrite Hmem, count_flags_spec, filter_flags, js_slice_window by lia.
      rewrite <- (firstn_skipn (Z.to_nat step) (skipn (Z.to_nat slice) friends)) at 2.
      rewrite filter_app, length_app, skipn_skipn.
      replace (Z.to_nat (slice + step)) with (Z.to_nat step + Z.to_nat slice)%nat by lia.
      lia.
    + apply Z.ltb_ge in E. rewrite skipn_all2 by lia. cbn. f_equal. lia.
Qed.

Corollary intended_bound_counts_members api group_id step friends member fuel :
  1 <= step ->
  (forall ids, groups_isMember api group_id ids = map member ids) ->
  (List.length friends <= fuel)%nat ->
  member_loop api group_id step (VNum (Z.of_nat (List.length friends))) friends fuel 0 0
  = Some (Z.of_nat (List.length (filter member friends))).
Proof.
  intros Hstep Hmem Hfuel.
  rewrite (member_loop_with_items_length api group_id step friends member Hstep Hmem)
    by lia.
  reflexivity.
Qed.

(** C4 at a concrete input: three friends, all of them members of group 101,
    examined one per slice.  The script reports 0 where three flags are set:
    its loop is bounded by [friends.length], and [friends] is the object, not
    the array.  Were that read as the number of fields of the object, 2, the
    loop would stop after two slices and report 2.  With the length of
    [friends.items] as the bound the same loop finds 3. *)
Theorem members_go_uncounted :
  friends_in_group_sum example_api 10 "1" 101 5000 1 = Some 0
  /\ List.length (filter (fun b : bool => b)
                    (groups_isMember example_api 101 [11; 12; 13])) = 3%nat
  /\ member_loop example_api 101 1 (VNum 2) [11; 12; 13] 10 0 0 = Some 2
  /\ member_loop example_api 101 1 (VNum 3) [11; 12; 13] 10 0 0 = Some 3.
Proof. repeat split. Qed.

(** ** The driver *)

(** Running a sequence of two computations. *)
Lemma bind_Ok {A B} (m : M A) (k : A -> M B) w w' b :
  bind m k w = (w', Ok b) ->
  exists w1 a, m w = (w1, Ok a) /\ k a w1 = (w', Ok b).
Proof.
  unfold bind. destruct (m w) as [w1 [a|e]]; [|discriminate]. eauto.
Qed.

Ltac bind_ok H w a H1 := apply bind_Ok in H; destruct H as (w & a & H1 & H).

Lemma bind_run {A B} (m : M A) (k : A -> M B) w w1 a :
  m w = (w1, Ok a) -> bind m k w = k a w1.
Proof. unfold bind. intros ->. reflexivity. Qed.

Lemma only_shows_refl w : only_shows [] [] w w.
Proof. unfold only_shows. rewrite !app_nil_r. auto 8. Qed.

Lemma only_shows_trans l1 v1 l2 v2 w w1 w2 :
  only_shows l1 v1 w w1 -> only_shows l2 v2 w1 w2 ->
  only_shows (l1 ++ l2) (v1 ++ v2) w w2.
Proof.
  intros (P1 & S1 & E1 & F1 & V1 & O1 & L1) (P2 & S2 & E2 & F2 & V2 & O2 & L2).
  unfold only_shows. rewrite P2, S2, E2, F2, V2, O2, L2, P1, S1, E1, F1, V1, O1, L1.
  rewrite !app_assoc. auto 8.
Qed.

(** A call of the callback: the value is noted; the callback draws its bar
    and returns, or it is [simple_progress] on a terminal with a status that
    is not a number, and raises. *)
Lemma call_progress_spec cb tty status w :
  let r := call_progress cb tty status w in
  (takes_status cb tty status = true /\ snd r = Ok tt
   /\ only_shows (bar cb tty status) [status] w (fst r))
  \/ (takes_status cb tty status = false /\ snd r = Raise RoundError
      /\ only_shows [] [status] w (fst r)).
Proof.
  unfold call_progress, bind, note, simple_progress, takes_status, bar, only_shows.
  destruct cb; [destruct tty; [destruct (is_number status)|]|]; cbn;
    rewrite ?app_nil_r; [left|right|left|left]; auto 10.
Qed.

Lemma call_progress_ok cb tty status w w' :
  call_progress cb tty status w = (w', Ok tt) ->
  only_shows (bar cb tty status) [status] w w'.
Proof.
  intros H. destruct (call_progress_spec cb tty status w) as [(_ & _ & Hs)|(_ & Hr & _)];
    rewrite H in *; [exact Hs|discriminate].
Qed.

Lemma call_progress_takes cb tty status w :
  takes_status cb tty status = true ->
  exists w', call_progress cb tty status w = (w', Ok tt)
             /\ only_shows (bar cb tty status) [status] w w'.
Proof.
  intros Ht. destruct (call_progress_spec cb tty status w) as [(_ & Hr & Hs)|(Hn & _)];
    [|congruence].
  destruct (call_progress cb tty status w) as [w' res]. cbn [fst snd] in *. subst res.
  eauto.
Qed.

Lemma takes_status_0 cb tty : takes_status cb tty 0 = true.
Proof. destruct cb, tty; reflexivity. Qed.


(** [(count + 1) / 100], when it returns. *)
Lemma int_truediv_ok a w w' x :
  int_truediv a 100 w = (w', Ok x) -> w' = w /\ x = SF2Prim (truediv a 100).
Proof.
  unfold int_truediv. cbn [Z.eqb].
  destruct (truediv a 100); cbn; intros [= <- <-]; auto.
Qed.

(** The file at the end of a run. *)
Lemma final_write_spec cfg data w :
  let r := final_write cfg data w in
  (file_is_taken cfg w data /\ snd r = Ok tt /\ only_writes (written cfg data) w (fst r))
  \/ (exists path,
        truthy_path (json_file cfg) = Some path
        /\ disk (env w) path data = OpenFails
        /\ r = (w, Raise OpenError))
  \/ (exists path,
        truthy_path (json_file cfg) = Some path
        /\ disk (env w) path data = DumpFails
        /\ snd r = Raise DumpError
        /\ only_writes [(path, Part data)] w (fst r)).
Proof.
  unfold final_write, file_is_taken, written, write_file, only_writes.
  destruct (truthy_path (json_file cfg)) as [path|]; cbn.
  - destruct (disk (env w) path data) eqn:E; cbn.
    + left. auto 10.
    + right. left. eauto.
    + right. right. exists path. auto 10.
  - left. rewrite app_nil_r. auto 10.
Qed.


Lemma final_write_ok cfg data w w' :
  final_write cfg data w = (w', Ok tt) ->
  file_is_taken cfg w data /\ only_writes (written cfg data) w w'.
Proof.
  intros H.
  destruct (final_write_spec cfg data w)
    as [(Ht & _ & Hw)|[(path & _ & _ & Hr)|(path & _ & _ & Hr & _)]];
    rewrite H in *; cbn [fst snd] in *; [auto|discriminate|discriminate].
Qed.

(** A call in a world that only shows more than another ends as in the
    other, and only shows as much more. *)
Lemma do_execute_request_shows net code lang token delay n l v w w0 w1 res :
  do_execute_request net code lang token delay n w = (w1, res) ->
  only_shows l v w w0 ->
  exists w1',
    do_execute_request net code lang token delay n w0 = (w1', res)
    /\ only_shows l v w1 w1'.
Proof.
  intros Hrun (P & S & E & F & V & O & L).
  destruct (do_execute_request_frame net code lang token delay n w w0)
    as (Hres & newp & news & newe & H1 & H2 & H3 & H4 & H5 & H6);
    [rewrite P; reflexivity|exact V|].
  destruct (do_execute_request_trace net code lang token delay n w)
    as (_ & _ & _ & _ & _ & _ & (Ho & Hl & Hf) & Hv & _).
  destruct (do_execute_request_trace net code lang token delay n w0)
    as (_ & _ & _ & _ & _ & _ & (Ho0 & Hl0 & Hf0) & Hv0 & _).
  rewrite Hrun in *. cbn [fst snd] in *.
  destruct (do_execute_request net code lang token delay n w0) as [w1' res'].
  cbn [fst snd] in *. subst res'. exists w1'. split; [reflexivity|].
  unfold only_shows.
  rewrite H2, H4, H6, Ho0, Hl0, Hf0, Hv0, H1, H3, H5, Ho, Hl, Hf, Hv, P, S, E, F, V, O, L.
  auto 10.
Qed.

(** The first two steps of every run: [progress(0)] and the summary
    request, which ends as [summary_answer] says. *)
Lemma run_start net tty cfg user_id w w1 res :
  summary_answer net cfg user_id w = (w1, res) ->
  exists w1',
    only_shows (bar (progress cfg) tty 0) [0%float] w1 w1'
    /\ forall (k : payload -> M (list unshared_group)),
         (call_progress (progress cfg) tty 0%float ;;
          user_info <- do_execute_request net
                         (GET_MAIN_USER_INFO_REQUEST_CODE user_id (group_step cfg)
                            (friend_step cfg))
                         (lang cfg) (token cfg) (request_delay cfg) (request_repeat cfg) ;;
          k user_info) w
         = match res with
           | Ok user_info => k user_info w1'
           | Raise e => (w1', Raise e)
           end.
Proof.
  intros Hsum. unfold summary_answer in Hsum.
  destruct (call_progress_takes (progress cfg) tty 0%float w (takes_status_0 _ _))
    as (w0 & H0 & Hs0).
  destruct (do_execute_request_shows _ _ _ _ _ _ _ _ _ _ _ _ Hsum Hs0) as (w1' & H1 & Hs1).
  exists w1'. split; [exact Hs1|]. intros k.
  rewrite (bind_run _ _ _ _ _ H0). unfold bind at 1. rewrite H1.
  destruct res; reflexivity.
Qed.

(** The summary request posts its request, one or more times. *)
Lemma summary_answer_posts net cfg user_id w w1 v :
  summary_answer net cfg user_id w = (w1, Ok v) ->
  exists j,
    (1 <= j <= Z.to_nat (request_repeat cfg))%nat
    /\ posted w1 = posted w ++ repeat (summary_request cfg user_id) j.
Proof.
  intros Hsum. unfold summary_answer in Hsum.
  destruct (do_execute_request_trace net
              (GET_MAIN_USER_INFO_REQUEST_CODE user_id (group_step cfg) (friend_step cfg))
              (lang cfg) (token cfg) (request_delay cfg) (request_repeat cfg) w)
    as (j & s & Hj & Hp & _ & _ & _ & _ & _ & Hend).
  rewrite Hsum in Hp, Hend. cbn [fst snd] in Hp, Hend.
  exists j. split; [|exact Hp].
  destruct Hend as [(_ & _ & Hres)|[(Hs & _)|(_ & _ & _ & Hres)]];
    [destruct j; discriminate|lia|discriminate].
Qed.



(** A call that returns a value: the request was posted one or more times,
    and the value is what the network sent at the last of them. *)
Lemma do_execute_request_ok net code lang token delay n w w' v :
  do_execute_request net code lang token delay n w = (w', Ok v) ->
  exists j,
    (1 <= j <= Z.to_nat n)%nat
    /\ posted w' = posted w ++ repeat (form_data code lang token) j
    /\ same_outputs w w'
    /\ env w' = env w
    /\ net (List.length (posted w) + (j - 1))%nat (form_data code lang token)
       = Reply (Parsed None (Some v)).
Proof.
  intros Hrun.
  destruct (do_execute_request_trace net code lang token delay n w)
    as (j & s & Hj & Hp & _ & _ & Ho & Hv & _ & Hend).
  rewrite Hrun in Hp, Ho, Hv, Hend. cbn [fst snd] in Hp, Ho, Hv, Hend.
  exists j.
  destruct Hend as [(_ & _ & Hres)|[(Hs & _ & Hres)|(_ & _ & _ & Hres)]];
    [destruct j; discriminate| |discriminate].
  subst j. replace (S s - 1)%nat with s by lia.
  refine (conj _ (conj Hp (conj Ho (conj Hv _)))); [lia|].
  destruct (net _ _) as [e|[|[err|] [v'|]]]; try discriminate. congruence.
Qed.

(** One round of the loop over the groups, read backwards from a run that
    completes. *)
Lemma analyze_groups_step net tty cfg quiet user_id step g todo status acc w w' result :
  analyze_groups net tty cfg quiet user_id step (g :: todo) status acc w
  = (w', Ok result) ->
  exists w1 info w2,
    group_answer net cfg user_id g w = (w1, Ok info)
    /\ usable quiet info
    /\ only_shows (bar (progress cfg) tty (status + step) ++ group_lines quiet info)
         [(status + step)%float] w1 w2
    /\ analyze_groups net tty cfg quiet user_id step todo (status + step)%float
         (acc ++ appended info) w2
       = (w', Ok result).
Proof.
  intros H. cbn [analyze_groups] in H. unfold group_answer.
  bind_ok H w1 info H1. exists w1, info. rewrite H1.
  bind_ok H w2 t2 H2. destruct t2. apply call_progress_ok in H2.
  bind_ok H w3 special H3.
  unfold usable, group_lines, appended.
  destruct (p_special_group info) as [flag|]; [|discriminate].
  injection H3 as <- <-.
  destruct flag.
  - bind_ok H w4 grp H4.
    destruct (p_group info) as [grp'|]; [|discriminate]. injection H4 as <- <-.
    bind_ok H w5 g0 H5.
    destruct grp' as [|g0' grp']; [discriminate|]. injection H5 as <- <-.
    bind_ok H w6 t6 H6.
    destruct quiet.
    + injection H6 as <- _. exists w2.
      split; [reflexivity|]. split.
      { exists true. split; [reflexivity|]. intros _. split; [eauto|discriminate]. }
      rewrite app_nil_r. split; [exact H2|exact H].
    + bind_ok H6 w7 n H7.
      destruct (p_friends_in_group info) as [n'|]; [|discriminate].
      injection H7 as <- <-. injection H6 as <- _.
      eexists. split; [reflexivity|]. split.
      { exists true. split; [reflexivity|]. intros _. split; eauto. }
      split; [|exact H].
      replace [(status + step)%float] with ([(status + step)%float] ++ []) by reflexivity.
      apply (only_shows_trans _ _ _ _ _ _ _ H2).
      unfold only_shows. cbn. rewrite app_nil_r. auto 10.
  - exists w2. split; [reflexivity|]. split.
    { exists false. split; [reflexivity|discriminate]. }
    rewrite !app_nil_r. destruct quiet; rewrite ?app_nil_r; split; assumption.
Qed.

Lemma statuses_length status step n : List.length (statuses status step n) = n.
Proof. revert status. induction n; intros; cbn; [reflexivity|rewrite IHn; reflexivity]. Qed.

(** The loop over the groups in a run that completes: the answers it got,
    one for each group, what it made of them, and all that it left behind. *)
Lemma analyze_groups_run net tty cfg quiet user_id step :
  forall todo status acc w w' result,
    analyze_groups net tty cfg quiet user_id step todo status acc w = (w', Ok result) ->
    exists answers counts,
      Forall2 (answers_group net cfg user_id) todo answers
      /\ Forall (usable quiet) answers
      /\ result = acc ++ flat_map appended answers
      /\ List.length counts = List.length todo
      /\ Forall (fun j => 1 <= j <= Z.to_nat (request_repeat cfg))%nat counts
      /\ posted w' = posted w ++ group_posts cfg user_id todo counts
      /\ progress_log w' = progress_log w ++ statuses status step (List.length todo)
      /\ stdout w'
         = stdout w
           ++ loop_lines (progress cfg) tty quiet
                (statuses status step (List.length todo)) answers
      /\ files w' = files w
      /\ env w' = env w.
Proof.
  induction todo as [|g todo IH]; intros status acc w w' result Hrun.
  - cbn in Hrun. injection Hrun as <- <-. exists [], [].
    cbn. rewrite !app_nil_r. auto 12.
  - apply analyze_groups_step in Hrun.
    destruct Hrun as (w1 & info & w2 & Hreq & Huse & Hshow & Hrest).
    unfold group_answer in Hreq. apply do_execute_request_ok in Hreq.
    destruct Hreq as (j & Hj & Hp1 & (Ho1 & Hl1 & Hf1) & Hv1 & Hnet).
    destruct Hshow as (P & S & E & F & V & O & L).
    apply IH in Hrest.
    destruct Hrest as (answers & counts & Hans & Hall & Hres & Hlen & Hcounts
                       & Hp & Hl & Ho & Hf & Hv).
    exists (info :: answers), (j :: counts).
    split; [constructor; [eexists; exact Hnet|exact Hans]|].
    split; [constructor; assumption|].
    split; [rewrite Hres, <- app_assoc; reflexivity|].
    split; [cbn [List.length]; lia|].
    split; [constructor; assumption|].
    split; [rewrite Hp, P, Hp1, <- app_assoc; reflexivity|].
    split; [rewrite Hl, L, Hl1, <- app_assoc; reflexivity|].
    split; [rewrite Ho, O, Ho1; unfold loop_lines; cbn [List.length statuses combine map
                                                          List.concat fst snd];
            rewrite <- !app_assoc; reflexivity|].
    split; [rewrite Hf, F, Hf1; reflexivity|].
    rewrite Hv, V, Hv1. reflexivity.
Qed.

(** A completed run for an existing, active user, cut into its stages. *)
Lemma existing_user_run net tty cfg user_id w w1 user_info u rest groups wf result :
  summary_answer net cfg user_id w = (w1, Ok user_info) ->
  p_user user_info = Some (u :: rest) ->
  u_deactivated u = None ->
  p_groups user_info = Some groups ->
  find_unshared_groups net tty cfg user_id w = (wf, Ok result) ->
  let quiet := if negb tty then true else silent cfg in
  let cb := progress cfg in
  exists w2 w3 w4,
    only_shows (bar cb tty 0 ++ bar cb tty (first_status groups)
                ++ user_lines quiet user_id u groups user_info)
      [0%float; first_status groups] w1 w2
    /\ (quiet = false -> p_friends user_info <> None)
    /\ analyze_groups net tty cfg quiet user_id (1 / first_status groups)%float
         (items groups) (first_status groups) [] w2 = (w3, Ok result)
    /\ only_shows (bar cb tty 100 ++ total_lines quiet groups result) [100%float] w3 w4
    /\ file_is_taken cfg w4 result
    /\ only_writes (written cfg result) w4 wf.
Proof.
  intros Hsum Hu Hd Hg Hrun quiet cb.
  destruct (run_start net tty cfg user_id w w1 _ Hsum) as (w1' & Hs1 & Hstart).
  unfold find_unshared_groups in Hrun. rewrite Hstart in Hrun. clear Hstart.
  rewrite Hu in Hrun. cbn [getitem] in Hrun.
  rewrite (bind_run _ _ _ _ _ (eq_refl : ret (u :: rest) w1' = (_, Ok _))) in Hrun.
  rewrite Hd, Hg in Hrun. cbn [getitem] in Hrun.
  fold quiet cb in Hrun.
  bind_ok Hrun w5 sg Hmid.
  bind_ok Hrun w6 t6 H6. injection Hrun as -> ->.
  change (final_write cfg result w5 = (wf, Ok t6)) in H6. destruct t6.
  apply final_write_ok in H6. destruct H6 as (Htaken & Hwrite).
  bind_ok Hmid w7 gs H7. injection H7 as <- <-.
  bind_ok Hmid w7 st H7. apply int_truediv_ok in H7. destruct H7 as (-> & ->).
  fold (first_status groups) in Hmid.
  bind_ok Hmid w7 step H7. unfold one_over in H7.
  destruct (first_status groups =? 0)%float; [discriminate|]. injection H7 as <- <-.
  bind_ok Hmid w2 t2 H2. destruct t2. apply call_progress_ok in H2. fold cb in H2.
  bind_ok Hmid w3 t3 H3.
  bind_ok Hmid w4 sg' H4.
  bind_ok Hmid w8 t8 H8. destruct t8. apply call_progress_ok in H8. fold cb in H8.
  bind_ok Hmid w9 t9 H9. injection Hmid as -> ->.
  assert (Huser : only_shows (user_lines quiet user_id u groups user_info) [] w2 w3
                  /\ (quiet = false -> p_friends user_info <> None)).
  { unfold user_lines. destruct quiet.
    - injection H3 as <- _. split; [apply only_shows_refl|discriminate].
    - bind_ok H3 w10 fr H10.
      destruct (p_friends user_info) as [friends|]; [|discriminate].
      injection H10 as <- <-. injection H3 as <- _.
      split; [|discriminate]. unfold only_shows. cbn. rewrite app_nil_r. auto 10. }
  destruct Huser as (Huser & Hfr).
  assert (Htot : only_shows (total_lines quiet groups result) [] w8 w5).
  { unfold total_lines. destruct quiet.
    - injection H9 as <- _. apply only_shows_refl.
    - injection H9 as <- _. unfold only_shows. cbn. rewrite app_nil_r. auto 10. }
  exists w3, w4, w5.
  split.
  { pose proof (only_shows_trans _ _ _ _ _ _ _ Hs1
                  (only_shows_trans _ _ _ _ _ _ _ H2 Huser)) as H.
    rewrite app_nil_r in H. exact H. }
  split; [exact Hfr|]. split; [exact H4|].
  split.
  { pose proof (only_shows_trans _ _ _ _ _ _ _ H8 Htot) as H.
    rewrite app_nil_r in H. exact H. }
  auto.
Qed.






(** What the group script returns. *)
Lemma check_special_group_inv api fuel user_id g thr ls ms v :
  check_special_group api fuel user_id g thr ls ms = Some v ->
  exists sum,
    friends_in_group_sum api fuel user_id g ls ms = Some sum
    /\ p_friends_in_group v = Some sum
    /\ p_special_group v = Some (sum <=? thr)
    /\ p_group v = Some (groups_getById api g).
Proof.
  unfold check_special_group.
  destruct (friends_in_group_sum api fuel user_id g ls ms) as [sum|]; [|discriminate].
  intros [= <-]. exists sum. auto.
Qed.

(** Against a service that runs the script, the records appended for the
    answers are those of the groups within the threshold. *)
Lemma service_answers api fuel net cfg user_id :
  forall todo answers,
    service_runs_script api fuel net cfg user_id todo ->
    Forall2 (answers_group net cfg user_id) todo answers ->
    flat_map appended answers
    = flat_map (record_of api) (filter (is_unshared api fuel cfg user_id) todo)
    /\ forall g, In g todo ->
         exists sum,
           friends_in_group_sum api fuel user_id g (friend_load_step cfg)
             (friend_is_member_step cfg) = Some sum
           /\ (sum <= members_threshold cfg -> Forall (usable true) answers ->
               groups_getById api g <> []).
Proof.
  intros todo answers Hsrv Hans. induction Hans as [|g v todo answers (k & Hk) Hans IH].
  - split; [reflexivity|intros g []].
  - destruct IH as (IH1 & IH2); [intros k' g' v' Hin; apply Hsrv; right; exact Hin|].
    apply (Hsrv _ g v (or_introl eq_refl)) in Hk.
    apply check_special_group_inv in Hk.
    destruct Hk as (sum & Hsum & _ & Hflag & Hby).
    assert (Hu : is_unshared api fuel cfg user_id g = (sum <=? members_threshold cfg))
      by (unfold is_unshared; rewrite Hsum; reflexivity).
    split.
    + cbn [flat_map filter]. rewrite Hu, IH1. unfold appended. rewrite Hflag, Hby.
      destruct (sum <=? members_threshold cfg); [|reflexivity].
      cbn [flat_map]. unfold record_of at 2.
      destruct (groups_getById api g); reflexivity.
    + intros g' [<-|Hin].
      * exists sum. split; [exact Hsum|]. intros Hle Hall.
        inversion Hall as [|? ? (flag & Hf & Hgrp) _]; subst.
        rewrite Hflag in Hf. injection Hf as <-.
        destruct (Hgrp (proj2 (Z.leb_le _ _) Hle)) as ((g0 & grp & Hg) & _).
        rewrite Hby in Hg. injection Hg as ->. discriminate.
      * destruct (IH2 g' Hin) as (sum' & Hs' & Hne). exists sum'.
        split; [exact Hs'|]. intros Hle Hall. apply Hne; [exact Hle|].
        inversion Hall; assumption.
Qed.




(** The part of C5 that holds for every run that completes: one call before
    the summary request, one after it, one per group, one at the end; the
    first value is 0 and the last is 100. *)
Lemma progress_calls_of_a_full_run net tty cfg user_id w w1 user_info u rest groups wf result :
  summary_answer net cfg user_id w = (w1, Ok user_info) ->
  p_user user_info = Some (u :: rest) ->
  u_deactivated u = None ->
  p_groups user_info = Some groups ->
  find_unshared_groups net tty cfg user_id w = (wf, Ok result) ->
  exists mid,
    progress_log wf = progress_log w ++ [0%float] ++ mid ++ [100%float]
    /\ List.length mid = S (List.length (items groups)).
Proof.
  intros Hsum Hu Hd Hg Hrun.
  pose proof (do_execute_request_inv _ _ _ _ _ _ _ _ _ Hsum)
    as (_ & _ & _ & _ & (_ & Hlog & _) & _).
  destruct (existing_user_run _ _ _ _ _ _ _ _ _ _ _ _ Hsum Hu Hd Hg Hrun)
    as (w2 & w3 & w4 & (_ & _ & _ & _ & _ & _ & L2) & _ & Hloop
        & (_ & _ & _ & _ & _ & _ & L4) & _ & (_ & _ & _ & _ & L5 & _)).
  apply analyze_groups_run in Hloop.
  destruct Hloop as (answers & counts & _ & _ & _ & _ & _ & _ & L3 & _).
  exists (first_status groups
            :: statuses (first_status groups) (1 / first_status groups)%float
                 (List.length (items groups))).
  rewrite L5, L4, L3, L2, Hlog, <- !app_assoc. cbn [List.length app].
  rewrite statuses_length. auto.
Qed.

(** C5 at a concrete input: a user with 100 groups, every request answered
    at once.  The callback is called 103 times, first with 0 and last with
    100, but the value after the last group is above 100, so that the values
    neither stay within [0, 100] nor are non-decreasing.  With 99 groups
    they do both. *)
Theorem progress_overshoots_with_100_groups :
  let r := find_unshared_groups (net_groups 100) true example_config "1" empty_world in
  let log := progress_log (fst r) in
  snd r = Ok []
  /\ List.length log = 103%nat
  /\ (nth 0 log 0 =? 0)%float = true
  /\ (100 <? nth 101 log 0)%float = true
  /\ (nth 102 log 0 =? 100)%float = true
  /\ within_0_100 log = false
  /\ non_decreasing log = false
  /\ (let log99 := progress_log (fst (find_unshared_groups (net_groups 99) true
                                        example_config "1" empty_world)) in
      within_0_100 log99 = true /\ non_decreasing log99 = true).
Proof. vm_compute. repeat split. Qed.

(** The default callback [simple_progress] clamps what it draws, which hides
    the overshoot on the terminal only. *)
Example simple_progress_clamps :
  map simple_progress_status [(-1)%float; 50%float; 101%float]
  = [0%float; 50%float; 100%float].
Proof. reflexivity. Qed.

(** ** The identifier in the script *)

Lemma keeps_posted_same {A} (m : M A) :
  (forall w, posted (fst (m w)) = posted w) -> keeps_posted m.
Proof. intros H w. exists []. rewrite app_nil_r. apply H. Qed.

Lemma keeps_posted_bind {A B} (m : M A) (k : A -> M B) :
  keeps_posted m -> (forall a, keeps_posted (k a)) -> keeps_posted (bind m k).
Proof.
  intros Hm Hk w. unfold bind. destruct (Hm w) as (l1 & H1).
  destruct (m w) as [w1 [a|e]]; cbn [fst] in *.
  - destruct (Hk a w1) as (l2 & H2). exists (l1 ++ l2).
    rewrite H2, H1, app_assoc. reflexivity.
  - exists l1. exact H1.
Qed.

Lemma keeps_posted_do_execute_request net code lang token delay n :
  keeps_posted (do_execute_request net code lang token delay n).
Proof.
  intros w. destruct (do_execute_request net code lang token delay n w) as [w' res] eqn:E.
  apply do_execute_request_inv in E. destruct E as (j & _ & _ & Hp & _). eauto.
Qed.

Lemma keeps_posted_getitem {A} key (o : option A) : keeps_posted (getitem key o).
Proof. apply keeps_posted_same. intros w. destruct o; reflexivity. Qed.

Lemma keeps_posted_item0 {A} (l : list A) : keeps_posted (item0 l).
Proof. apply keeps_posted_same. intros w. destruct l; reflexivity. Qed.

Lemma keeps_posted_one_over x : keeps_posted (one_over x).
Proof.
  apply keeps_posted_same. intros w. unfold one_over.
  destruct (x =? 0)%float; reflexivity.
Qed.

Lemma keeps_posted_call_progress cb tty status :
  keeps_posted (call_progress cb tty status).
Proof.
  apply keeps_posted_same. intros w.
  destruct (call_progress_spec cb tty status w) as [(_ & _ & H)|(_ & _ & H)]; apply H.
Qed.

Lemma keeps_posted_int_truediv a b : keeps_posted (int_truediv a b).
Proof.
  apply keeps_posted_same. intros w. unfold int_truediv.
  destruct (b =? 0); [reflexivity|]. destruct (truediv a b); reflexivity.
Qed.

Lemma keeps_posted_write_file path data : keeps_posted (write_file path data).
Proof.
  apply keeps_posted_same. intros w. unfold write_file.
  destruct (disk (env w) path data); reflexivity.
Qed.

Ltac keeps_posted_step :=
  first
    [ apply keeps_posted_do_execute_request
    | apply keeps_posted_call_progress
    | apply keeps_posted_int_truediv
    | apply keeps_posted_write_file
    | apply keeps_posted_bind; [|intros ?]
    | apply keeps_posted_getitem
    | apply keeps_posted_item0
    | apply keeps_posted_one_over
    | apply keeps_posted_same; intros ?; reflexivity ].

(** Nothing in the driver removes a request from the log. *)
Lemma keeps_posted_analyze_groups net tty cfg quiet user_id step :
  forall todo status acc,
    keeps_posted (analyze_groups net tty cfg quiet user_id step todo status acc).
Proof.
  induction todo as [|g todo IH]; intros status acc; cbn [analyze_groups].
  - keeps_posted_step.
  - repeat keeps_posted_step.
    match goal with |- keeps_posted (if ?b then _ else _) => destruct b end;
      [|apply IH].
    repeat keeps_posted_step; [|apply IH].
    destruct quiet; repeat keeps_posted_step.
Qed.

(** C8, amended: the identifier is not checked.  For every identifier, safe
    or not, and [request_repeat >= 1], the run posts the summary request
    first, and its script has the identifier between double quotes exactly as
    it was given. *)
Theorem identifier_is_interpolated_as_given :
  forall net tty cfg user_id w,
    1 <= request_repeat cfg ->
    (exists rest,
       posted (fst (find_unshared_groups net tty cfg user_id w))
       = posted w ++ summary_request cfg user_id :: rest)
    /\ exists before after,
         req_code (summary_request cfg user_id)
         = (before ++ dq ++ user_id ++ dq ++ after)%string.
Proof.
  intros net tty cfg user_id w Hn. split.
  - unfold find_unshared_groups.
    destruct (call_progress_takes (progress cfg) tty 0%float w (takes_status_0 _ _))
      as (w0 & H0 & (P0 & _)).
    rewrite (bind_run _ _ _ _ _ H0). unfold bind at 1.
    match goal with |- context [do_execute_request net ?c ?l ?t ?d ?n w0] =>
      destruct (do_execute_request net c l t d n w0) as [w1 res] eqn:E end.
    pose proof (do_execute_request_inv _ _ _ _ _ _ _ _ _ E) as (j & _ & Hj & Hp & _).
    specialize (Hj Hn). destruct j as [|j]; [lia|]. cbn [posted repeat] in Hp.
    rewrite P0 in Hp.
    fold (summary_request cfg user_id) in Hp.
    destruct res as [user_info|e]; cbn [fst].
    + match goal with |- context [fst (?k w1)] =>
        assert (Hk : keeps_posted k) end.
      { repeat keeps_posted_step.
        - destruct a as [|u rest].
          + repeat keeps_posted_step.
            destruct (raise_nouser cfg); repeat keeps_posted_step.
          + destruct (u_deactivated u).
            * repeat keeps_posted_step.
              destruct (raise_nouser cfg); repeat keeps_posted_step.
            * repeat keeps_posted_step.
              -- destruct (if negb tty then true else silent cfg);
                   repeat keeps_posted_step.
              -- apply keeps_posted_analyze_groups.
              -- destruct (if negb tty then true else silent cfg);
                   repeat keeps_posted_step.
        - destruct (truthy_path (json_file cfg)); repeat keeps_posted_step. }
      destruct (Hk w1) as (l & Hl). rewrite Hl, Hp, <- app_assoc. cbn [app]. eauto.
    + rewrite Hp. eauto.
  - unfold summary_request, form_data, GET_MAIN_USER_INFO_REQUEST_CODE. cbn [req_code].
    eexists _, _. reflexivity.
Qed.

(** Witness of C8, amended: an identifier with a double quote in it. *)
Lemma hostile_identifier_witness :
  exists rest,
    posted (fst (find_unshared_groups net_no_user true example_config hostile_id
                   empty_world))
    = posted empty_world ++ summary_request example_config hostile_id :: rest.
Proof.
  apply (proj1 (identifier_is_interpolated_as_given net_no_user true example_config
                  hostile_id empty_world ltac:(simpl; lia))).
Defined.

(** Counterexample to C8 as stated: the identifier of the witness has a
    double quote in it, and the request is posted. *)
Lemma unsafe_identifier_is_posted : ~ unsafe_identifier_is_rejected.
Proof.
  intros H.
  specialize (H net_no_user true example_config hostile_id empty_world eq_refl).
  vm_compute in H. discriminate H.
Qed.


(** ** The retry loop, attempt by attempt *)

(** X1: whatever the network does, at most [request_repeat] requests go out,
    all of them the same form data; the function sleeps [request_delay] after
    each attempt but possibly the last, and touches neither stdout, nor the
    progress callback, nor any file. *)
Theorem attempts_are_bounded_and_alike :
  forall net code lang token delay request_repeat w,
    let r := do_execute_request net code lang token delay request_repeat w in
    exists j s,
      (j <= Z.to_nat request_repeat)%nat
      /\ (s = j \/ S s = j)
      /\ posted (fst r) = posted w ++ repeat (form_data code lang token) j
      /\ slept (fst r) = slept w ++ repeat delay s
      /\ same_outputs w (fst r).
Proof.
  intros net code lang token delay n w r.
  destruct (do_execute_request_trace net code lang token delay n w)
    as (j & s & Hj & Hp & Hsl & _ & Ho & _ & _ & Hend).
  exists j, s. repeat split; try assumption; try apply Ho.
  destruct Hend as [(Hs & _)|[(Hs & _)|(Hs & _)]]; auto.
Qed.

(** X2: a value is returned only as the value under the key response of an
    answer without the key error, given to this very request, at the last
    attempt made, every attempt before it having failed; and the two request
    errors are raised only after all [request_repeat] attempts have failed. *)
Theorem outcome_tells_what_happened :
  forall net code lang token delay request_repeat w,
    let req := form_data code lang token in
    let base := List.length (posted w) in
    let r := do_execute_request net code lang token delay request_repeat w in
    (forall v, snd r = Ok v ->
       exists k,
         (k < Z.to_nat request_repeat)%nat
         /\ (forall i, (i < k)%nat -> is_failure (net (base + i)%nat req))
         /\ net (base + k)%nat req = Reply (Parsed None (Some v))
         /\ posted (fst r) = posted w ++ repeat req (S k))
    /\ (forall e,
          snd r = Raise e ->
          is_request_error e ->
          1 <= request_repeat
          /\ (forall i, (i < Z.to_nat request_repeat)%nat ->
                is_failure (net (base + i)%nat req))
          /\ posted (fst r) = posted w ++ repeat req (Z.to_nat request_repeat)).
Proof.
  intros net code lang token delay n w req base r.
  destruct (do_execute_request_trace net code lang token delay n w)
    as (j & s & Hj & Hp & _ & _ & _ & _ & Hf & Hend).
  fold req base r in Hp, Hf, Hend. split.
  - intros v Hv.
    destruct Hend as [(Hs & Hjn & Hres)|[(Hs & Hnf & Hres)|(_ & _ & _ & Hres)]].
    + rewrite Hv in Hres. destruct j; discriminate.
    + exists s. rewrite Hv in Hres. subst j.
      refine (conj _ (conj Hf (conj _ Hp))); [lia|].
      destruct (net (base + s)%nat req) as [e|[|[err|] [v'|]]]; try discriminate.
      congruence.
    + rewrite Hv in Hres. discriminate.
  - intros e He Hreq. rewrite He in Hend.
    destruct Hend as [(Hs & Hjn & Hres)|[(Hs & Hnf & Hres)|(_ & _ & _ & Hres)]].
    + subst s. rewrite <- Hjn.
      destruct j as [|m]; [injection Hres as ->; contradiction|].
      refine (conj _ (conj Hf Hp)). lia.
    + exfalso.
      destruct (net (base + s)%nat req) as [e'|[|[err|] [v'|]]];
        try discriminate; injection Hres as ->; contradiction.
    + injection Hres as ->. contradiction.
Qed.

(** Witness of X2. *)
Lemma outcome_witness :
  (exists k,
     (k < 10)%nat
     /\ (forall i, (i < k)%nat ->
           is_failure (net_up_at_third (0 + i)%nat (form_data "return 1;" "ru" "token")))
     /\ net_up_at_third (0 + k)%nat (form_data "return 1;" "ru" "token")
        = Reply (Parsed None (Some (summary_payload [example_user] [] [])))
     /\ posted (fst (do_execute_request net_up_at_third "return 1;" "ru" "token"
                       0.5%float 10 empty_world))
        = repeat (form_data "return 1;" "ru" "token") (S k))
  /\ posted (fst (do_execute_request net_always_down "return 1;" "ru" "token"
                    0.5%float 3 empty_world))
     = repeat (form_data "return 1;" "ru" "token") 3.
Proof.
  split.
  - apply (proj1 (outcome_tells_what_happened net_up_at_third "return 1;" "ru" "token"
                    0.5%float 10 empty_world)
             (summary_payload [example_user] [] [])).
    vm_compute. reflexivity.
  - apply (proj2 (outcome_tells_what_happened net_always_down "return 1;" "ru" "token"
                    0.5%float 3 empty_world)
             (RequestError ConnectTimeout)).
    + vm_compute. reflexivity.
    + exact I.
Defined.

(** X3: the function prints to stderr one line for each exception that
    requests.post raised, in the order of the attempts, and nothing else: an
    error answer is retried without a word. *)
Theorem stderr_gets_the_exceptions_only :
  forall net code lang token delay request_repeat w,
    let r := do_execute_request net code lang token delay request_repeat w in
    exists j,
      posted (fst r) = posted w ++ repeat (form_data code lang token) j
      /\ stderr (fst r)
         = stderr w
           ++ printed (attempts_made net (form_data code lang token)
                         (List.length (posted w)) j).
Proof.
  intros net code lang token delay n w r.
  destruct (do_execute_request_trace net code lang token delay n w)
    as (j & s & _ & Hp & _ & He & _).
  exists j. auto.
Qed.

(** X4: an answer that parses but has neither the key error nor the key
    response ends the attempts: when attempt [k] is the first that does not
    fail and it is such an answer, the loop is left as for a success and the
    lookup of the key response raises KeyError, after exactly [k] requests,
    the delay being, when an attempt failed, one that time.sleep takes. *)
Theorem keyless_answer_raises_KeyError :
  forall net code lang token delay request_repeat w k,
    let req := form_data code lang token in
    let base := List.length (posted w) in
    (1 <= k <= Z.to_nat request_repeat)%nat ->
    ((2 <= k)%nat -> sleep_accepts w delay = true) ->
    (forall i, (i < k - 1)%nat -> is_failure (net (base + i)%nat req)) ->
    net (base + (k - 1))%nat req = keyless ->
    exists w',
      do_execute_request net code lang token delay request_repeat w
      = (w', Raise (KeyError "response"))
      /\ posted w' = posted w ++ repeat req k
      /\ slept w' = slept w ++ repeat delay (k - 1).
Proof.
  intros net code lang token delay request_repeat w k req base Hk Hsleep Hfail Hbad.
  set (n := Z.to_nat request_repeat) in *.
  destruct (attempt_loop_skip_failures net req delay (k - 1) (S (n - k)) RNone w
              (fun H => Hsleep ltac:(lia)) Hfail)
    as (w1 & Hrun & Hp & Hs & _).
  replace (k - 1 + S (n - k))%nat with n in Hrun by lia.
  assert (Hlen : List.length (posted w1) = (base + (k - 1))%nat).
  { rewrite Hp, length_app, repeat_length. reflexivity. }
  rewrite attempt_loop_step_ok with (resp := None) in Hrun
    by (rewrite Hlen; exact Hbad).
  eexists. rewrite do_execute_request_eq. fold req. fold n. rewrite Hrun.
  split; [reflexivity|]. cbn [posted slept after_post].
  rewrite Hp, Hs, <- app_assoc, repeat_snoc.
  replace (S (k - 1)) with k by lia. auto.
Qed.

(** Witness of X4. *)
Lemma keyless_answer_witness :
  exists w',
    do_execute_request net_keyless_at_third "return 1;" "ru" "token" 0.5%float 10
      empty_world
    = (w', Raise (KeyError "response"))
    /\ posted w' = repeat (form_data "return 1;" "ru" "token") 3
    /\ slept w' = [0.5%float; 0.5%float].
Proof.
  apply (keyless_answer_raises_KeyError net_keyless_at_third "return 1;" "ru" "token"
           0.5%float 10 empty_world 3).
  - simpl. lia.
  - intros _. reflexivity.
  - intros i Hi. destruct i as [|[|i]]; [exact I | exact I | simpl in Hi; lia].
  - reflexivity.
Defined.


(** ** The run as a whole *)

Lemma leaves_bind {A B X} (f : world -> X) (m : M A) (k : A -> M B) :
  leaves f m -> (forall a, leaves f (k a)) -> leaves f (bind m k).
Proof.
  intros Hm Hk w. unfold bind. specialize (Hm w).
  destruct (m w) as [w1 [a|e]]; cbn [fst] in *; [|exact Hm].
  rewrite Hk. exact Hm.
Qed.

Lemma leaves_getitem {A X} (f : world -> X) key (o : option A) : leaves f (getitem key o).
Proof. intros w. destruct o; reflexivity. Qed.

Lemma leaves_item0 {A X} (f : world -> X) (l : list A) : leaves f (item0 l).
Proof. intros w. destruct l; reflexivity. Qed.

Lemma leaves_one_over {X} (f : world -> X) x : leaves f (one_over x).
Proof. intros w. unfold one_over. destruct (x =? 0)%float; reflexivity. Qed.

Lemma leaves_int_truediv {X} (f : world -> X) a b : leaves f (int_truediv a b).
Proof.
  intros w. unfold int_truediv. destruct (b =? 0); [reflexivity|].
  destruct (truediv a b); reflexivity.
Qed.

Lemma leaves_stdout_do_execute_request net code lang token delay n :
  leaves stdout (do_execute_request net code lang token delay n).
Proof.
  intros w. destruct (do_execute_request net code lang token delay n w) as [w' res] eqn:E.
  apply do_execute_request_inv in E. destruct E as (j & _ & _ & _ & Ho & _). apply Ho.
Qed.

Lemma leaves_files_do_execute_request net code lang token delay n :
  leaves files (do_execute_request net code lang token delay n).
Proof.
  intros w. destruct (do_execute_request net code lang token delay n w) as [w' res] eqn:E.
  apply do_execute_request_inv in E. destruct E as (j & _ & _ & _ & Ho & _). apply Ho.
Qed.

Lemma leaves_env_do_execute_request net code lang token delay n :
  leaves env (do_execute_request net code lang token delay n).
Proof. intros w. apply do_execute_request_env. Qed.

Lemma leaves_files_call_progress cb tty status :
  leaves files (call_progress cb tty status).
Proof.
  intros w.
  destruct (call_progress_spec cb tty status w) as [(_ & _ & H)|(_ & _ & H)]; apply H.
Qed.

Lemma leaves_env_call_progress cb tty status :
  leaves env (call_progress cb tty status).
Proof.
  intros w.
  destruct (call_progress_spec cb tty status w) as [(_ & _ & H)|(_ & _ & H)]; apply H.
Qed.

(** The callback writes nothing when stdout is no terminal, and when it is
    not [simple_progress]. *)
Lemma leaves_stdout_call_progress cb tty status :
  tty = false \/ cb = Recorder ->
  leaves stdout (call_progress cb tty status).
Proof.
  intros Hq w.
  destruct (call_progress_spec cb tty status w)
    as [(_ & _ & (_ & _ & _ & _ & _ & H & _))|(_ & _ & (_ & _ & _ & _ & _ & H & _))];
    rewrite H; [|apply app_nil_r].
  assert (bar cb tty status = []) as ->; [|apply app_nil_r].
  unfold bar. destruct Hq as [->| ->]; [destruct cb|]; reflexivity.
Qed.

Ltac leaves_step :=
  first
    [ apply leaves_stdout_do_execute_request
    | apply leaves_files_do_execute_request
    | apply leaves_env_do_execute_request
    | apply leaves_files_call_progress
    | apply leaves_env_call_progress
    | apply leaves_stdout_call_progress; assumption
    | apply leaves_int_truediv
    | apply leaves_bind; [|intros ?]
    | apply leaves_getitem
    | apply leaves_item0
    | apply leaves_one_over
    | (intros ?; reflexivity) ].

Lemma leaves_stdout_analyze_groups net tty cfg user_id step :
  tty = false \/ progress cfg = Recorder ->
  forall todo status acc,
    leaves stdout (analyze_groups net tty cfg true user_id step todo status acc).
Proof.
  intros Hq. induction todo as [|g todo IH]; intros status acc; cbn [analyze_groups].
  - leaves_step.
  - repeat leaves_step.
    match goal with |- leaves _ (if ?b then _ else _) => destruct b end;
      [|apply IH].
    repeat leaves_step. apply IH.
Qed.

(** What comes before the writing of the file touches no file and does not
    raise what the writing raises. *)
Lemma before_file_bind {A B} (m : M A) (k : A -> M B) :
  before_file m -> (forall a, before_file (k a)) -> before_file (bind m k).
Proof.
  intros Hm Hk w. unfold bind. destruct (Hm w) as (Hf & He).
  destruct (m w) as [w1 [a|e]]; cbn [fst snd] in *.
  - destruct (Hk a w1) as (Hf' & He'). split; [congruence|exact He'].
  - split; [exact Hf|exact He].
Qed.

Lemma before_file_pure {A} (m : M A) :
  (forall w, files (fst (m w)) = files w
             /\ match snd (m w) with
                | Raise DumpError | Raise OpenError => False
                | _ => True
                end) ->
  before_file m.
Proof. intros H. exact H. Qed.

Lemma before_file_do_execute_request net code lang token delay n :
  before_file (do_execute_request net code lang token delay n).
Proof.
  apply before_file_pure. intros w. split; [apply leaves_files_do_execute_request|].
  destruct (do_execute_request_trace net code lang token delay n w)
    as (j & s & _ & _ & _ & _ & _ & _ & Hf & Hend).
  destruct Hend as [(_ & _ & ->)|[(_ & _ & ->)|(_ & _ & _ & ->)]].
  - destruct j as [|m]; [exact I|]. destruct (net _ _) as [e|[|[err|] resp]]; exact I.
  - destruct (net _ _) as [e|[|[err|] [v|]]]; exact I.
  - exact I.
Qed.

Lemma before_file_call_progress cb tty status :
  before_file (call_progress cb tty status).
Proof.
  apply before_file_pure. intros w. split; [apply leaves_files_call_progress|].
  destruct (call_progress_spec cb tty status w) as [(_ & -> & _)|(_ & -> & _)]; exact I.
Qed.

Lemma before_file_getitem {A} key (o : option A) : before_file (getitem key o).
Proof. intros w. destruct o; split; [reflexivity|exact I|reflexivity|exact I]. Qed.

Lemma before_file_item0 {A} (l : list A) : before_file (item0 l).
Proof. intros w. destruct l; split; [reflexivity|exact I|reflexivity|exact I]. Qed.

Lemma before_file_one_over x : before_file (one_over x).
Proof.
  intros w. unfold one_over.
  destruct (x =? 0)%float; split; [reflexivity|exact I|reflexivity|exact I].
Qed.

Lemma before_file_int_truediv a b : before_file (int_truediv a b).
Proof.
  intros w. unfold int_truediv. destruct (b =? 0); [split; [reflexivity|exact I]|].
  destruct (truediv a b); split; try reflexivity; exact I.
Qed.

Ltac before_file_step :=
  first
    [ apply before_file_do_execute_request
    | apply before_file_call_progress
    | apply before_file_int_truediv
    | apply before_file_bind; [|intros ?]
    | apply before_file_getitem
    | apply before_file_item0
    | apply before_file_one_over
    | (intros ?; split; [reflexivity|exact I]) ].

Lemma before_file_analyze_groups net tty cfg quiet user_id step :
  forall todo status acc,
    before_file (analyze_groups net tty cfg quiet user_id step todo status acc).
Proof.
  induction todo as [|g todo IH]; intros status acc; cbn [analyze_groups].
  - before_file_step.
  - repeat before_file_step.
    match goal with |- before_file (if ?b then _ else _) => destruct b end;
      [|apply IH].
    repeat before_file_step; [|apply IH].
    destruct quiet; repeat before_file_step.
Qed.

Lemma file_rule_bind {A} cfg (m : M A) k :
  before_file m -> (forall a, file_rule cfg (k a)) -> file_rule cfg (bind m k).
Proof.
  intros Hm Hk w0. unfold bind. destruct (Hm w0) as (Hf & He).
  destruct (m w0) as [w1 [a|e]]; cbn [fst snd] in *.
  - specialize (Hk a w1). destruct (snd (k a w1)) as [sg|e]; [congruence|].
    destruct e; try congruence.
    destruct Hk as (path & data & Hp & Hk). exists path, data. split; [exact Hp|congruence].
  - destruct e; try exact Hf; contradiction.
Qed.

Lemma file_rule_final_write cfg special_groups :
  file_rule cfg (bind (final_write cfg special_groups) (fun _ => ret special_groups)).
Proof.
  intros w. unfold bind.
  destruct (final_write_spec cfg special_groups w)
    as [(_ & Hr & W)|[(path & Hp & Hd & Hr)|(path & Hp & Hd & Hr & W)]].
  - destruct (final_write cfg special_groups w) as [w' res]. cbn [fst snd] in *.
    subst res. cbn. apply W.
  - rewrite Hr. reflexivity.
  - destruct (final_write cfg special_groups w) as [w' res]. cbn [fst snd] in *.
    subst res. cbn. exists path, special_groups. split; [exact Hp|apply W].
Qed.

(** X5: the output file is written, whole, by a run that returns, once,
    with the list that the run returns ([if json_file:] allowing), and by no
    other; a run that raises has touched no file, unless what it raises left
    json.dump or the closing of the file, in which case the file was opened,
    and so emptied, and holds some part of the text. *)
Theorem file_is_written_by_completed_runs_only :
  forall net tty cfg user_id w,
    let r := find_unshared_groups net tty cfg user_id w in
    match snd r with
    | Ok special_groups => files (fst r) = files w ++ written cfg special_groups
    | Raise DumpError =>
        exists path data,
          truthy_path (json_file cfg) = Some path
          /\ files (fst r) = files w ++ [(path, Part data)]
    | Raise _ => files (fst r) = files w
    end.
Proof.
  intros net tty cfg user_id w r. subst r. revert w.
  change (file_rule cfg (find_unshared_groups net tty cfg user_id)).
  unfold find_unshared_groups.
  apply file_rule_bind; [before_file_step|intros _].
  apply file_rule_bind; [before_file_step|intros user_info].
  apply file_rule_bind; [before_file_step|intros user].
  apply file_rule_bind.
  - destruct user as [|u rest].
    + repeat before_file_step. destruct (raise_nouser cfg); repeat before_file_step.
    + destruct (u_deactivated u).
      * repeat before_file_step. destruct (raise_nouser cfg); repeat before_file_step.
      * repeat before_file_step.
        -- destruct (if negb tty then true else silent cfg); repeat before_file_step.
        -- apply before_file_analyze_groups.
        -- destruct (if negb tty then true else silent cfg); repeat before_file_step.
  - intros special_groups. apply file_rule_final_write.
Qed.

(** Witness of X5: the disk fills up while the list is dumped. *)
Lemma cut_file_witness :
  exists path data,
    truthy_path (json_file example_config) = Some path
    /\ files (fst (find_unshared_groups net_no_groups true example_config "1"
                     (on_platform full_disk)))
       = files (on_platform full_disk) ++ [(path, Part data)].
Proof.
  generalize (file_is_written_by_completed_runs_only net_no_groups true example_config
                "1" (on_platform full_disk)).
  vm_compute. intros H. exact H.
Defined.

Lemma only_bars_bind {A B} (m : M A) (k : A -> M B) :
  only_bars m -> (forall a, only_bars (k a)) -> only_bars (bind m k).
Proof.
  intros Hm Hk w. unfold bind. destruct (Hm w) as (b1 & H1 & F1).
  destruct (m w) as [w1 [a|e]]; cbn [fst] in *.
  - destruct (Hk a w1) as (b2 & H2 & F2). exists (b1 ++ b2).
    rewrite H2, H1, app_assoc. split; [reflexivity|apply Forall_app; auto].
  - exists b1. auto.
Qed.

Lemma only_bars_leaves {A} (m : M A) : leaves stdout m -> only_bars m.
Proof. intros H w. exists []. rewrite app_nil_r. split; [apply H|constructor]. Qed.

Lemma only_bars_call_progress cb tty status : only_bars (call_progress cb tty status).
Proof.
  intros w.
  destruct (call_progress_spec cb tty status w)
    as [(_ & _ & (_ & _ & _ & _ & _ & H & _))|(_ & _ & (_ & _ & _ & _ & _ & H & _))].
  - exists (bar cb tty status). split; [exact H|].
    unfold bar. destruct cb; [destruct tty|]; repeat constructor.
  - exists []. split; [exact H|constructor].
Qed.

Ltac only_bars_step :=
  first
    [ apply only_bars_leaves, leaves_stdout_do_execute_request
    | apply only_bars_call_progress
    | apply only_bars_bind; [|intros ?]
    | apply only_bars_leaves; leaves_step ].

Lemma only_bars_analyze_groups net tty cfg user_id step :
  forall todo status acc,
    only_bars (analyze_groups net tty cfg true user_id step todo status acc).
Proof.
  induction todo as [|g todo IH]; intros status acc; cbn [analyze_groups].
  - only_bars_step.
  - repeat only_bars_step.
    match goal with |- only_bars (if ?b then _ else _) => destruct b end;
      [|apply IH].
    repeat only_bars_step. apply IH.
Qed.

(** X6: a run for which stdout is no terminal writes nothing to it, and
    neither does a run with [silent] whose callback is not
    [simple_progress]; a run with [silent] writes nothing to stdout but the
    bars of the callback; all this whatever the network does and however the
    run ends. *)
Theorem quiet_run_prints_nothing :
  forall net tty cfg user_id w,
    let r := find_unshared_groups net tty cfg user_id w in
    (tty = false \/ (silent cfg = true /\ progress cfg = Recorder) ->
     stdout (fst r) = stdout w)
    /\ (silent cfg = true ->
        exists bars, stdout (fst r) = stdout w ++ bars /\ Forall is_bar bars).
Proof.
  intros net tty cfg user_id w r. subst r. split.
  - intros Hq. revert w.
    change (leaves stdout (find_unshared_groups net tty cfg user_id)).
    unfold find_unshared_groups.
    assert (Hquiet : (if negb tty then true else silent cfg) = true).
    { destruct Hq as [->|(-> & _)]; [reflexivity|destruct (negb tty); reflexivity]. }
    assert (Hcb : tty = false \/ progress cfg = Recorder) by tauto.
    rewrite Hquiet.
    apply leaves_bind; [leaves_step|intros _].
    apply leaves_bind; [leaves_step|intros user_info].
    apply leaves_bind; [leaves_step|intros user].
    apply leaves_bind; [|intros special_groups].
    + destruct user as [|u rest].
      * repeat leaves_step. destruct (raise_nouser cfg); repeat leaves_step.
      * destruct (u_deactivated u).
        -- repeat leaves_step. destruct (raise_nouser cfg); repeat leaves_step.
        -- repeat leaves_step. apply leaves_stdout_analyze_groups. exact Hcb.
    + apply leaves_bind; [|intros _; leaves_step].
      intros w. destruct (truthy_path (json_file cfg)) as [path|]; [|reflexivity].
      unfold write_file. destruct (disk (env w) path special_groups); reflexivity.
  - intros Hs. revert w.
    change (only_bars (find_unshared_groups net tty cfg user_id)).
    unfold find_unshared_groups.
    assert (Hquiet : (if negb tty then true else silent cfg) = true)
      by (rewrite Hs; destruct (negb tty); reflexivity).
    rewrite Hquiet.
    apply only_bars_bind; [only_bars_step|intros _].
    apply only_bars_bind; [only_bars_step|intros user_info].
    apply only_bars_bind; [only_bars_step|intros user].
    apply only_bars_bind; [|intros special_groups].
    + destruct user as [|u rest].
      * repeat only_bars_step. destruct (raise_nouser cfg); repeat only_bars_step.
      * destruct (u_deactivated u).
        -- repeat only_bars_step. destruct (raise_nouser cfg); repeat only_bars_step.
        -- repeat only_bars_step. apply only_bars_analyze_groups.
    + apply only_bars_bind; [|intros _; only_bars_step].
      apply only_bars_leaves.
      intros w. destruct (truthy_path (json_file cfg)) as [path|]; [|reflexivity].
      unfold write_file. destruct (disk (env w) path special_groups); reflexivity.
Qed.

(** Witness of X6: a run with [silent] on a terminal, with the default
    callback. *)
Lemma quiet_run_witness :
  exists bars,
    stdout (fst (find_unshared_groups (net_groups 2) true silent_config "1" empty_world))
    = stdout empty_world ++ bars
    /\ Forall is_bar bars.
Proof.
  apply (proj2 (quiet_run_prints_nothing (net_groups 2) true silent_config "1"
                  empty_world)).
  reflexivity.
Defined.

Lemma exhausts_bind net n {A B} (m : M A) (k : A -> M B) :
  exhausts net n m -> (forall a, exhausts net n (k a)) -> exhausts net n (bind m k).
Proof.
  intros Hm Hk w e. unfold bind. specialize (Hm w e).
  destruct (m w) as [w1 [a|e1]]; cbn [fst snd] in *.
  - apply Hk.
  - intros [= ->]. apply Hm. reflexivity.
Qed.

Lemma exhausts_do_execute_request net code lang token delay n :
  exhausts net (Z.to_nat n) (do_execute_request net code lang token delay n).
Proof.
  intros w e He Hreq.
  destruct (do_execute_request_trace net code lang token delay n w)
    as (j & s & Hj & Hp & _ & _ & _ & _ & Hf & Hend).
  rewrite He in Hend.
  destruct Hend as [(Hs & Hjn & Hres)|[(Hs & Hnf & Hres)|(_ & _ & _ & Hres)]].
  - subst s. rewrite <- Hjn.
    destruct j as [|m]; [injection Hres as ->; contradiction|].
    exists (posted w), (form_data code lang token).
    refine (conj Hp (conj _ (conj Hf _))); [lia|].
    replace (S m - 1)%nat with m by lia. congruence.
  - exfalso.
    destruct (net _ _) as [e'|[|[err|] [v'|]]];
      try discriminate; injection Hres as ->; contradiction.
  - injection Hres as ->. contradiction.
Qed.

(** A computation that raises no request error of its own. *)
Lemma exhausts_quiet net n {A} (m : M A) :
  (forall w e, snd (m w) = Raise e -> ~ is_request_error e) -> exhausts net n m.
Proof. intros H w e He Hreq. exfalso. exact (H w e He Hreq). Qed.

Ltac no_request_error :=
  apply exhausts_quiet; intros ? ? ?;
  match goal with
  | H : snd _ = Raise _ |- _ => cbn in H; try discriminate H; injection H as <-; exact (fun x => x)
  end.

Lemma exhausts_getitem net n {A} key (o : option A) : exhausts net n (getitem key o).
Proof. destruct o; no_request_error. Qed.

Lemma exhausts_item0 net n {A} (l : list A) : exhausts net n (item0 l).
Proof. destruct l; no_request_error. Qed.

Lemma exhausts_one_over net n x : exhausts net n (one_over x).
Proof. unfold one_over. destruct (x =? 0)%float; no_request_error. Qed.

Lemma exhausts_int_truediv net n a b : exhausts net n (int_truediv a b).
Proof.
  unfold int_truediv. destruct (b =? 0); [no_request_error|].
  destruct (truediv a b); no_request_error.
Qed.

Lemma exhausts_call_progress net n cb tty status :
  exhausts net n (call_progress cb tty status).
Proof.
  apply exhausts_quiet. intros w e He.
  destruct (call_progress_spec cb tty status w) as [(_ & H & _)|(_ & H & _)];
    rewrite He in H; [discriminate|]. injection H as ->. exact (fun x => x).
Qed.

Lemma exhausts_write_file net n path data : exhausts net n (write_file path data).
Proof.
  apply exhausts_quiet. intros w e. unfold write_file.
  destruct (disk (env w) path data); cbn; intros [= <-]; exact (fun x => x).
Qed.

Ltac exhausts_step :=
  first
    [ apply exhausts_do_execute_request
    | apply exhausts_call_progress
    | apply exhausts_int_truediv
    | apply exhausts_write_file
    | apply exhausts_bind; [|intros ?]
    | apply exhausts_getitem
    | apply exhausts_item0
    | apply exhausts_one_over
    | no_request_error ].

Lemma exhausts_analyze_groups net tty cfg quiet user_id step :
  forall todo status acc,
    exhausts net (Z.to_nat (request_repeat cfg))
      (analyze_groups net tty cfg quiet user_id step todo status acc).
Proof.
  induction todo as [|g todo IH]; intros status acc; cbn [analyze_groups].
  - exhausts_step.
  - repeat exhausts_step.
    match goal with |- exhausts _ _ (if ?b then _ else _) => destruct b end;
      [|apply IH].
    repeat exhausts_step; [|apply IH].
    destruct quiet; repeat exhausts_step.
Qed.

(** X7: when a run ends with one of the two request errors, the last
    [request_repeat] requests posted are one and the same request, each of its
    attempts failed, and the error is the failure of the last attempt. *)
Theorem request_error_means_exhausted_retries :
  forall net tty cfg user_id w e,
    let r := find_unshared_groups net tty cfg user_id w in
    let n := Z.to_nat (request_repeat cfg) in
    snd r = Raise e ->
    is_request_error e ->
    exists earlier req,
      posted (fst r) = earlier ++ repeat req n
      /\ (1 <= n)%nat
      /\ (forall i, (i < n)%nat -> is_failure (net (List.length earlier + i)%nat req))
      /\ e = failure_exn (net (List.length earlier + (n - 1))%nat req).
Proof.
  intros net tty cfg user_id w e r n. subst r n. revert w e.
  change (exhausts net (Z.to_nat (request_repeat cfg))
            (find_unshared_groups net tty cfg user_id)).
  unfold find_unshared_groups.
  apply exhausts_bind; [exhausts_step|intros _].
  apply exhausts_bind; [exhausts_step|intros user_info].
  apply exhausts_bind; [exhausts_step|intros user].
  apply exhausts_bind; [|intros special_groups].
  - destruct user as [|u rest].
    + repeat exhausts_step. destruct (raise_nouser cfg); repeat exhausts_step.
    + destruct (u_deactivated u).
      * repeat exhausts_step. destruct (raise_nouser cfg); repeat exhausts_step.
      * repeat exhausts_step.
        -- destruct (if negb tty then true else silent cfg); repeat exhausts_step.
        -- apply exhausts_analyze_groups.
        -- destruct (if negb tty then true else silent cfg); repeat exhausts_step.
  - destruct (truthy_path (json_file cfg)); repeat exhausts_step.
Qed.

(** Witness of X7. *)
Lemma request_error_witness :
  exists earlier req,
    posted (fst (find_unshared_groups net_always_down true example_config "1" empty_world))
    = earlier ++ repeat req 10
    /\ (1 <= 10)%nat
    /\ (forall i, (i < 10)%nat ->
          is_failure (net_always_down (List.length earlier + i)%nat req))
    /\ RequestError ConnectTimeout
       = failure_exn (net_always_down (List.length earlier + (10 - 1))%nat req).
Proof.
  apply (request_error_means_exhausted_retries net_always_down true example_config "1"
           empty_world (RequestError ConnectTimeout)).
  - vm_compute. reflexivity.
  - exact I.
Defined.

(** X8: in a run that completes for an existing, active user the requests go
    out one after the other in the order of the summary: the summary request,
    then for each group its request, each posted at least once and at most
    [request_repeat] times, nothing else and nothing in between. *)
Theorem requests_follow_the_groups :
  forall net tty cfg user_id w w1 user_info u rest groups wf result,
    summary_answer net cfg user_id w = (w1, Ok user_info) ->
    p_user user_info = Some (u :: rest) ->
    u_deactivated u = None ->
    p_groups user_info = Some groups ->
    find_unshared_groups net tty cfg user_id w = (wf, Ok result) ->
    exists first counts,
      List.length counts = List.length (items groups)
      /\ Forall (fun j => 1 <= j <= Z.to_nat (request_repeat cfg))%nat (first :: counts)
      /\ posted wf
         = posted w ++ repeat (summary_request cfg user_id) first
           ++ group_posts cfg user_id (items groups) counts.
Proof.
  intros net tty cfg user_id w w1 user_info u rest groups wf result Hsum Hu Hd Hg Hrun.
  destruct (summary_answer_posts _ _ _ _ _ _ Hsum) as (j & Hj & Hp1).
  destruct (existing_user_run _ _ _ _ _ _ _ _ _ _ _ _ Hsum Hu Hd Hg Hrun)
    as (w2 & w3 & w4 & (P2 & _) & _ & Hloop & (P4 & _) & _ & (P5 & _)).
  apply analyze_groups_run in Hloop.
  destruct Hloop as (answers & counts & _ & _ & _ & Hlen & Hall & Hp & _).
  exists j, counts. split; [exact Hlen|]. split; [auto|].
  rewrite P5, P4, Hp, P2, Hp1, <- app_assoc. reflexivity.
Qed.

(** Witness of X8. *)
Lemma requests_witness :
  exists first counts,
    List.length counts = 2%nat
    /\ Forall (fun j => 1 <= j <= 10)%nat (first :: counts)
    /\ posted (fst (find_unshared_groups (net_groups 2) true example_config "1" empty_world))
       = repeat (summary_request example_config "1") first
         ++ group_posts example_config "1" [1; 2] counts.
Proof.
  apply (requests_follow_the_groups (net_groups 2) true example_config "1" empty_world
           (fst (summary_answer (net_groups 2) example_config "1" empty_world))
           (summary_payload [example_user] [1; 2] [11; 12]) example_user []
           {| count := 2; items := [1; 2] |}
           (fst (find_unshared_groups (net_groups 2) true example_config "1" empty_world))
           []
           eq_refl eq_refl eq_refl eq_refl).
  vm_compute. reflexivity.
Defined.

(** X9: the values handed to the progress callback in a run that completes
    for an existing, active user: 0, then [(count + 1) / 100], the quotient
    of the two ints rounded to a float once, then that value increased by
    [1 / ((count + 1) / 100)] once per group, then 100. *)
Theorem progress_values_of_a_completed_run :
  forall net tty cfg user_id w w1 user_info u rest groups wf result,
    summary_answer net cfg user_id w = (w1, Ok user_info) ->
    p_user user_info = Some (u :: rest) ->
    u_deactivated u = None ->
    p_groups user_info = Some groups ->
    find_unshared_groups net tty cfg user_id w = (wf, Ok result) ->
    progress_log wf
    = progress_log w
      ++ [0%float; first_status groups]
      ++ statuses (first_status groups) (1 / first_status groups)%float
           (List.length (items groups))
      ++ [100%float].
Proof.
  intros net tty cfg user_id w w1 user_info u rest groups wf result Hsum Hu Hd Hg Hrun.
  pose proof (do_execute_request_inv _ _ _ _ _ _ _ _ _ Hsum)
    as (_ & _ & _ & _ & (_ & Hlog & _) & _).
  destruct (existing_user_run _ _ _ _ _ _ _ _ _ _ _ _ Hsum Hu Hd Hg Hrun)
    as (w2 & w3 & w4 & (_ & _ & _ & _ & _ & _ & L2) & _ & Hloop
        & (_ & _ & _ & _ & _ & _ & L4) & _ & (_ & _ & _ & _ & L5 & _)).
  apply analyze_groups_run in Hloop.
  destruct Hloop as (answers & counts & _ & _ & _ & _ & _ & _ & L3 & _).
  rewrite L5, L4, L3, L2, Hlog, <- !app_assoc. reflexivity.
Qed.

(** Witness of X9: a user whose count of groups is 2 to the power 53, above
    which not every int is a float, and whose list of groups has two
    items. *)
Lemma progress_values_witness :
  progress_log (fst (find_unshared_groups net_huge_count true example_config "1"
                       empty_world))
  = [0%float; first_status {| count := 9007199254740992; items := [1; 2] |}]
    ++ statuses (first_status {| count := 9007199254740992; items := [1; 2] |})
         (1 / first_status {| count := 9007199254740992%Z; items := [1%Z; 2%Z] |})%float 2
    ++ [100%float].
Proof.
  apply (progress_values_of_a_completed_run net_huge_count true example_config "1"
           empty_world
           (fst (summary_answer net_huge_count example_config "1" empty_world))
           huge_count_summary example_user []
           {| count := 9007199254740992; items := [1; 2] |}
           (fst (find_unshared_groups net_huge_count true example_config "1" empty_world))
           []
           eq_refl eq_refl eq_refl eq_refl).
  vm_compute. reflexivity.
Defined.

Lemma filter_all {A} (f : A -> bool) l :
  (forall x, In x l -> f x = true) -> filter f l = l.
Proof.
  induction l as [|x l IH]; intros H; [reflexivity|].
  cbn [filter]. rewrite (H x (or_introl eq_refl)), IH; [reflexivity|].
  intros y Hy. apply H. right. exact Hy.
Qed.

Lemma filter_none {A} (f : A -> bool) l :
  (forall x, In x l -> f x = false) -> filter f l = [].
Proof.
  induction l as [|x l IH]; intros H; [reflexivity|].
  cbn [filter]. rewrite (H x (or_introl eq_refl)), IH; [reflexivity|].
  intros y Hy. apply H. right. exact Hy.
Qed.

(** X10: what the driver returns against a service that runs the group script
    as it is written: with a threshold of 0 or more the records of all the
    groups of the user, with a negative threshold none, whoever the friends are
    and whichever groups they belong to. *)
Theorem result_does_not_depend_on_memberships :
  forall api fuel net tty cfg user_id w w1 user_info u rest groups wf result,
    summary_answer net cfg user_id w = (w1, Ok user_info) ->
    p_user user_info = Some (u :: rest) ->
    u_deactivated u = None ->
    p_groups user_info = Some groups ->
    service_runs_script api fuel net cfg user_id (items groups) ->
    find_unshared_groups net tty cfg user_id w = (wf, Ok result) ->
    result = if 0 <=? members_threshold cfg
             then flat_map (record_of api) (items groups)
             else [].
Proof.
  intros api fuel net tty cfg user_id w w1 user_info u rest groups wf result
    Hsum Hu Hd Hg Hsrv Hrun.
  destruct (existing_user_run _ _ _ _ _ _ _ _ _ _ _ _ Hsum Hu Hd Hg Hrun)
    as (w2 & w3 & w4 & _ & _ & Hloop & _).
  apply analyze_groups_run in Hloop.
  destruct Hloop as (answers & counts & Hans & _ & Hres & _). cbn [app] in Hres.
  destruct (service_answers api fuel net cfg user_id _ _ Hsrv Hans) as (Hflat & Hcount).
  rewrite Hres, Hflat.
  assert (Hverdict : forall g, In g (items groups) ->
            is_unshared api fuel cfg user_id g = (0 <=? members_threshold cfg)).
  { intros g Hin. destruct (Hcount g Hin) as (sum & Hs & _). unfold is_unshared.
    rewrite Hs. apply friends_in_group_sum_zero in Hs. subst sum. reflexivity. }
  destruct (0 <=? members_threshold cfg).
  - rewrite filter_all by exact Hverdict. reflexivity.
  - rewrite filter_none by exact Hverdict. reflexivity.
Qed.

(** Witness of X10. *)
Lemma memberships_witness :
  [to_record (example_group 101); to_record (example_group 102)]
  = flat_map (record_of example_api) [101; 102].
Proof.
  refine (result_does_not_depend_on_memberships example_api 10
       (service example_api 10 example_config "1" [101; 102]) true example_config "1"
       empty_world
       (fst (summary_answer (service example_api 10 example_config "1" [101; 102])
               example_config "1" empty_world))
       (summary_payload [example_user] [101; 102] [11; 12; 13]) example_user []
       {| count := 2; items := [101; 102] |}
       (fst (find_unshared_groups (service example_api 10 example_config "1" [101; 102])
               true example_config "1" empty_world))
       [to_record (example_group 101); to_record (example_group 102)]
       _ eq_refl eq_refl eq_refl _ _).
  - vm_compute. reflexivity.
  - intros k g v [<-|[<-|[]]] Hreply; vm_compute in Hreply;
      injection Hreply as <-; vm_compute; reflexivity.
  - vm_compute. reflexivity.
Defined.

Lemma paced_bind delay {A B} (m : M A) (k : A -> M B) :
  paced delay m -> (forall a, paced delay (k a)) -> paced delay (bind m k).
Proof.
  intros Hm Hk w. unfold bind. destruct (Hm w) as (new & s & Hp & Hs & Hle).
  destruct (m w) as [w1 [a|e]]; cbn [fst] in *.
  - destruct (Hk a w1) as (new' & s' & Hp' & Hs' & Hle').
    exists (new ++ new'), (s + s')%nat.
    rewrite Hp', Hs', Hp, Hs, <- !app_assoc, repeat_app, length_app.
    repeat split; lia.
  - exists new, s. auto.
Qed.

Lemma paced_still delay {A} (m : M A) :
  (forall w, posted (fst (m w)) = posted w /\ slept (fst (m w)) = slept w) ->
  paced delay m.
Proof.
  intros H w. destruct (H w) as (Hp & Hs). exists [], 0%nat.
  rewrite Hp, Hs, !app_nil_r. cbn. auto.
Qed.

Lemma paced_do_execute_request net code lang token delay n :
  paced delay (do_execute_request net code lang token delay n).
Proof.
  intros w.
  destruct (do_execute_request_trace net code lang token delay n w)
    as (j & s & _ & Hp & Hs & _ & _ & _ & _ & Hend).
  exists (repeat (form_data code lang token) j), s.
  rewrite repeat_length. refine (conj Hp (conj Hs _)).
  destruct Hend as [(E & _)|[(E & _)|(E & _)]]; lia.
Qed.

Lemma paced_call_progress delay cb tty status :
  paced delay (call_progress cb tty status).
Proof.
  apply paced_still. intros w.
  destruct (call_progress_spec cb tty status w)
    as [(_ & _ & Hp & Hs & _)|(_ & _ & Hp & Hs & _)]; auto.
Qed.

Lemma paced_write_file delay path data : paced delay (write_file path data).
Proof.
  apply paced_still. intros w. unfold write_file.
  destruct (disk (env w) path data); split; reflexivity.
Qed.

Lemma paced_int_truediv delay a b : paced delay (int_truediv a b).
Proof.
  apply paced_still. intros w. unfold int_truediv.
  destruct (b =? 0); [split; reflexivity|].
  destruct (truediv a b); split; reflexivity.
Qed.

Ltac paced_step :=
  first
    [ apply paced_do_execute_request
    | apply paced_call_progress
    | apply paced_int_truediv
    | apply paced_write_file
    | apply paced_bind; [|intros ?]
    | apply paced_still; intros ?;
      match goal with
      | |- context [getitem _ ?o] => destruct o
      | |- context [item0 ?l] => destruct l
      | |- context [one_over ?x] => unfold one_over; destruct (x =? 0)%float
      | _ => idtac
      end; split; reflexivity ].

Lemma paced_analyze_groups net tty cfg quiet user_id step :
  forall todo status acc,
    paced (request_delay cfg)
      (analyze_groups net tty cfg quiet user_id step todo status acc).
Proof.
  induction todo as [|g todo IH]; intros status acc; cbn [analyze_groups].
  - paced_step.
  - repeat paced_step.
    match goal with |- paced _ (if ?b then _ else _) => destruct b end;
      [|apply IH].
    repeat paced_step; [|apply IH].
    destruct quiet; repeat paced_step.
Qed.

(** X11: a run sleeps [request_delay] each time it sleeps and at most once for
    each request that it posts, however it ends. *)
Theorem run_sleeps_between_requests_only :
  forall net tty cfg user_id w,
    let r := find_unshared_groups net tty cfg user_id w in
    exists new s,
      posted (fst r) = posted w ++ new
      /\ slept (fst r) = slept w ++ repeat (request_delay cfg) s
      /\ (s <= List.length new)%nat.
Proof.
  intros net tty cfg user_id w r. subst r. revert w.
  change (paced (request_delay cfg) (find_unshared_groups net tty cfg user_id)).
  unfold find_unshared_groups.
  apply paced_bind; [paced_step|intros _].
  apply paced_bind; [paced_step|intros user_info].
  apply paced_bind; [paced_step|intros user].
  apply paced_bind; [|intros special_groups].
  - destruct user as [|u rest].
    + repeat paced_step. destruct (raise_nouser cfg); repeat paced_step.
    + destruct (u_deactivated u).
      * repeat paced_step. destruct (raise_nouser cfg); repeat paced_step.
      * repeat paced_step.
        -- destruct (if negb tty then true else silent cfg); repeat paced_step.
        -- apply paced_analyze_groups.
        -- destruct (if negb tty then true else silent cfg); repeat paced_step.
  - destruct (truthy_path (json_file cfg)); repeat paced_step.
Qed.

(** The blocks of the answers are the records appended for them. *)
Lemma group_lines_blocks answers :
  Forall (usable false) answers ->
  flat_map group_block (flat_map (group_lines false) answers)
  = flat_map appended answers.
Proof.
  induction 1 as [|v answers (flag & Hflag & Hv) _ IH]; [reflexivity|].
  cbn [flat_map]. rewrite flat_map_app, IH. f_equal.
  unfold group_lines, appended. rewrite Hflag. destruct flag; [|reflexivity].
  destruct (Hv eq_refl) as ((g0 & grp & ->) & Hn).
  destruct (Hn eq_refl) as (n & ->). reflexivity.
Qed.

(** X12: what a run on a terminal that is not silent and completes for an
    existing, active user writes to stdout, in this order: what the callback
    draws for 0 and for the first status, the lines about the user with the
    two counts of the summary, then for each group of the summary what the
    callback draws for its status followed, when the group is special, by
    its block, then what the callback draws for 100 and the two totals: the
    count of groups of the summary and the length of the result.  The blocks
    are those of the groups of the result and no other, in the order of the
    result and showing its records. *)
Theorem verbose_run_prints_what_it_returns :
  forall net cfg user_id w w1 user_info u rest groups wf result,
    silent cfg = false ->
    summary_answer net cfg user_id w = (w1, Ok user_info) ->
    p_user user_info = Some (u :: rest) ->
    u_deactivated u = None ->
    p_groups user_info = Some groups ->
    find_unshared_groups net true cfg user_id w = (wf, Ok result) ->
    exists friends answers,
      p_friends user_info = Some friends
      /\ Forall2 (answers_group net cfg user_id) (items groups) answers
      /\ stdout wf
         = stdout w
           ++ bar (progress cfg) true 0
           ++ bar (progress cfg) true (first_status groups)
           ++ [OutUser user_id u (count groups) (count friends)]
           ++ loop_lines (progress cfg) true false
                (statuses (first_status groups) (1 / first_status groups)%float
                   (List.length (items groups)))
                answers
           ++ bar (progress cfg) true 100
           ++ [OutTotals (count groups) (List.length result)]
      /\ Forall is_group_block (flat_map (group_lines false) answers)
      /\ flat_map group_block (flat_map (group_lines false) answers) = result.
Proof.
  intros net cfg user_id w w1 user_info u rest groups wf result
    Hsilent Hsum Hu Hd Hg Hrun.
  pose proof (do_execute_request_inv _ _ _ _ _ _ _ _ _ Hsum)
    as (_ & _ & _ & _ & (Ho & _) & _).
  destruct (existing_user_run _ _ _ _ _ _ _ _ _ _ _ _ Hsum Hu Hd Hg Hrun)
    as (w2 & w3 & w4 & (_ & _ & _ & _ & _ & O2 & _) & Hfr & Hloop
        & (_ & _ & _ & _ & _ & O4 & _) & _ & (_ & _ & _ & O5 & _)).
  rewrite Hsilent in *. cbn [negb] in *.
  destruct (p_friends user_info) as [friends|] eqn:Efr;
    [|exfalso; apply (Hfr eq_refl); reflexivity].
  apply analyze_groups_run in Hloop.
  destruct Hloop as (answers & counts & Hans & Huse & Hres & _ & _ & _ & _ & O3 & _).
  cbn [app] in Hres.
  exists friends, answers. split; [reflexivity|]. split; [exact Hans|].
  split; [|split].
  - rewrite O5, O4, O3, O2, Ho. unfold user_lines, total_lines. rewrite Efr.
    rewrite <- !app_assoc. reflexivity.
  - clear - Huse. induction Huse as [|v answers (flag & Hflag & Hv) _ IH]; [constructor|].
    cbn [flat_map]. apply Forall_app. split; [|exact IH].
    unfold group_lines. rewrite Hflag. destruct flag; [|constructor].
    destruct (p_group v) as [[|g0 grp]|]; try constructor.
    destruct (p_friends_in_group v); constructor; [exact I|constructor].
  - rewrite Hres. apply group_lines_blocks. exact Huse.
Qed.

(** Witness of X12. *)
Lemma verbose_run_witness :
  exists friends answers,
    Some {| count := 3; items := [11; 12; 13] |} = Some friends
    /\ Forall2 (answers_group (service example_api 10 example_config "1" [101; 102])
                  example_config "1") [101; 102] answers
    /\ stdout (fst (find_unshared_groups
                      (service example_api 10 example_config "1" [101; 102])
                      true example_config "1" empty_world))
       = bar SimpleProgress true 0
         ++ bar SimpleProgress true
              (first_status {| count := 2; items := [101; 102] |})
         ++ [OutUser "1" example_user 2 (count friends)]
         ++ loop_lines SimpleProgress true false
              (statuses (first_status {| count := 2; items := [101; 102] |})
                 (1 / first_status {| count := 2%Z; items := [101%Z; 102%Z] |})%float 2)
              answers
         ++ bar SimpleProgress true 100
         ++ [OutTotals 2 2]
    /\ Forall is_group_block (flat_map (group_lines false) answers)
    /\ flat_map group_block (flat_map (group_lines false) answers)
       = [to_record (example_group 101); to_record (example_group 102)].
Proof.
  refine (verbose_run_prints_what_it_returns
       (service example_api 10 example_config "1" [101; 102]) example_config "1"
       empty_world
       (fst (summary_answer (service example_api 10 example_config "1" [101; 102])
               example_config "1" empty_world))
       (summary_payload [example_user] [101; 102] [11; 12; 13]) example_user []
       {| count := 2; items := [101; 102] |}
       (fst (find_unshared_groups (service example_api 10 example_config "1" [101; 102])
               true example_config "1" empty_world))
       [to_record (example_group 101); to_record (example_group 102)]
       eq_refl _ eq_refl eq_refl eq_refl _).
  - vm_compute. reflexivity.
  - vm_compute. reflexivity.
Defined.

(** ** The scripts *)

(** With a step of 0 or less the offset never gets past a count that it
    starts below. *)
Lemma paging_loop_stuck get step cnt :
  step <= 0 ->
  forall fuel i acc pages,
    i < cnt -> paging_loop get step cnt fuel i acc pages = None.
Proof.
  intros Hstep. induction fuel as [|fuel IH]; intros i acc pages Hi; cbn [paging_loop].
  - destruct (i <? cnt) eqn:E; [reflexivity|apply Z.ltb_ge in E; lia].
  - destruct (i <? cnt) eqn:E; [|apply Z.ltb_ge in E; lia].
    apply IH. lia.
Qed.

(** X13: a page size of 0 or less makes the summary script loop for ever as
    soon as the count of groups that the first call reports is above it (for a
    page size of 0: as soon as the user has a group), and the group script as
    soon as the count of friends is; no number of steps lets them return. *)
Theorem nonpositive_page_size_never_ends :
  forall api user_id group_id group_step friend_step friend_load_step
         friend_is_member_step,
    let uid := first_id (users_get api user_id) in
    (group_step <= 0 ->
     group_step < count (groups_get api uid group_step 0) ->
     forall fuel,
       get_main_user_info api fuel user_id group_step friend_step = None)
    /\ (friend_load_step <= 0 ->
        friend_load_step < count (friends_get api uid friend_load_step 0) ->
        forall fuel,
          friends_in_group_sum api fuel user_id group_id friend_load_step
            friend_is_member_step = None).
Proof.
  intros api user_id group_id group_step friend_step load_step member_step uid. split.
  - intros Hstep Hcount fuel. unfold get_main_user_info, fetch_all. fold uid.
    rewrite paging_loop_stuck by assumption. reflexivity.
  - intros Hstep Hcount fuel. unfold friends_in_group_sum, load_friends, fetch_all.
    fold uid. rewrite paging_loop_stuck by assumption. reflexivity.
Qed.

(** Witness of X13. *)
Lemma nonpositive_page_size_witness :
  (forall fuel, get_main_user_info example_api fuel "1" 0 5000 = None)
  /\ (forall fuel, friends_in_group_sum example_api fuel "1" 101 (-1) 500 = None).
Proof.
  split.
  - apply (proj1 (nonpositive_page_size_never_ends example_api "1" 101 0 5000 (-1) 500));
      vm_compute; [discriminate|reflexivity].
  - apply (proj2 (nonpositive_page_size_never_ends example_api "1" 101 0 5000 (-1) 500));
      vm_compute; [discriminate|reflexivity].
Defined.

(** X14: the expression [((member_flags+"").split(0)+"").split(1).length-1] is
    the number of flags that are 1, for every list of flags, the empty one
    included. *)
Theorem flag_expression_counts_the_set_flags :
  forall member_flags,
    count_flags member_flags
    = Z.of_nat (List.length (filter (fun b : bool => b) member_flags)).
Proof. exact count_flags_spec. Qed.

(** X15: what the group script returns whenever the page size for the friends
    is 1 or more and it is given steps for the list of friends: the user, the
    record of the group, a count of 0 friends in the group and the verdict that
    0 is within the threshold, whatever groups.isMember would say. *)
Theorem group_script_reports_zero_friends :
  forall api fuel user_id group_id members_threshold friend_load_step
         friend_is_member_step friend_list,
    (forall uid, friends_get api uid = paging_source friend_list) ->
    1 <= friend_load_step ->
    (List.length friend_list <= fuel)%nat ->
    check_special_group api fuel user_id group_id members_threshold friend_load_step
      friend_is_member_step
    = Some {| p_user := Some (users_get api user_id); p_groups := None;
              p_friends := None;
              p_special_group := Some (0 <=? members_threshold);
              p_friends_in_group := Some 0;
              p_group := Some (groups_getById api group_id) |}.
Proof.
  intros api fuel user_id group_id thr load_step member_step friend_list
    Hfriends Hstep Hfuel.
  unfold check_special_group, friends_in_group_sum, load_friends.
  rewrite Hfriends.
  destruct (fetch_all_source friend_list load_step Hstep fuel Hfuel) as (pages & -> & _).
  rewrite field_length_null, member_loop_null. reflexivity.
Qed.

(** Witness of X15. *)
Lemma group_script_witness :
  check_special_group example_api 10 "1" 101 0 5000 500
  = Some (group_payload true 0 (example_group 101)).
Proof.
  apply (group_script_reports_zero_friends example_api 10 "1" 101 0 5000 500 [11; 12; 13]).
  - intros uid. reflexivity.
  - lia.
  - simpl. lia.
Defined.

(** ** The progress bar *)

Lemma SFcompare_antisym a b :
  SFcompare b a = option_map CompOpp (SFcompare a b).
Proof.
  destruct a as [sa|sa| |sa ma ea], b as [sb|sb| |sb mb eb]; cbn;
    try reflexivity;
    try (destruct sa; reflexivity); try (destruct sb; reflexivity);
    try (destruct sa, sb; reflexivity).
  pose proof (Pos.compare_cont_antisym ma mb Eq) as Hm. cbn [CompOpp] in Hm.
  destruct sa, sb; cbn; try reflexivity; f_equal;
    rewrite (Z.compare_antisym ea eb); destruct (ea ?= eb); cbn; try reflexivity;
    rewrite <- Hm; destruct (Pos.compare_cont Eq ma mb); reflexivity.
Qed.

Lemma SFcompare_number a b :
  SFeqb a a = true -> SFeqb b b = true -> exists c, SFcompare a b = Some c.
Proof.
  destruct a as [sa|sa| |sa ma ea], b as [sb|sb| |sb mb eb]; cbn;
    intros; try discriminate; eauto.
Qed.

Lemma below_zero_is_below_100 sx :
  SFcompare sx (Prim2SF 0%float) = Some Lt ->
  SFcompare (Prim2SF 100%float) sx = Some Gt.
Proof.
  destruct sx as [s|s| |s m e]; cbn; try discriminate;
    destruct s; cbn; intros; try discriminate; reflexivity.
Qed.

(** X16: what [simple_progress] draws for a status that is a number: a status
    within [0, 100], the given one when that is within [0, 100] already, and
    100, which closes the bar with its final line breaks, exactly when the
    given status is 100 or more. *)
Theorem drawn_status_is_clamped :
  forall status,
    is_number status = true ->
    let drawn := simple_progress_status status in
    (0 <=? drawn)%float = true
    /\ (drawn <=? 100)%float = true
    /\ ((0 <=? status)%float = true -> (status <=? 100)%float = true -> drawn = status)
    /\ (drawn =? 100)%float = (100 <=? status)%float.
Proof.
  intros status Hnum drawn. subst drawn. unfold simple_progress_status, is_number in *.
  rewrite eqb_spec in Hnum.
  destruct (SFcompare_number (Prim2SF status) (Prim2SF 0%float) Hnum eq_refl) as (c1 & H1).
  destruct (SFcompare_number (Prim2SF 100%float) (Prim2SF status) eq_refl Hnum)
    as (c2 & H2).
  pose proof (SFcompare_antisym (Prim2SF status) (Prim2SF 0%float)) as A1.
  pose proof (SFcompare_antisym (Prim2SF 100%float) (Prim2SF status)) as A2.
  rewrite H1 in A1. rewrite H2 in A2. cbn [option_map] in A1, A2.
  assert (L0 : (status <? 0)%float = match c1 with Lt => true | _ => false end)
    by (rewrite ltb_spec; unfold SFltb; rewrite H1; reflexivity).
  assert (G0 : (0 <=? status)%float = match c1 with Lt => false | _ => true end)
    by (rewrite leb_spec; unfold SFleb; rewrite A1; destruct c1; reflexivity).
  assert (L100 : (100 <? status)%float = match c2 with Lt => true | _ => false end)
    by (rewrite ltb_spec; unfold SFltb; rewrite H2; reflexivity).
  assert (G100 : (100 <=? status)%float = match c2 with Gt => false | _ => true end)
    by (rewrite leb_spec; unfold SFleb; rewrite H2; destruct c2; reflexivity).
  assert (U100 : (status <=? 100)%float = match c2 with Lt => false | _ => true end)
    by (rewrite leb_spec; unfold SFleb; rewrite A2; destruct c2; reflexivity).
  assert (E100 : (status =? 100)%float = match c2 with Eq => true | _ => false end)
    by (rewrite eqb_spec; unfold SFeqb; rewrite A2; destruct c2; reflexivity).
  rewrite L0.
  destruct c1; cbn match.
  - rewrite L100, ?G0, ?U100, ?G100. destruct c2; rewrite ?G0, ?U100, ?E100;
      repeat split; intros; try discriminate; auto.
  - rewrite (below_zero_is_below_100 _ H1) in H2. injection H2 as <-.
    rewrite G0, G100. repeat split; intros; try discriminate; reflexivity.
  - rewrite L100, ?G0, ?U100, ?G100. destruct c2; rewrite ?G0, ?U100, ?E100;
      repeat split; intros; try discriminate; auto.
Qed.

(** Witness of X16. *)
Lemma drawn_status_witness :
  (0 <=? simple_progress_status 100.5)%float = true
  /\ (simple_progress_status 100.5 <=? 100)%float = true
  /\ ((0 <=? 100.5)%float = true -> (100.5 <=? 100)%float = true ->
      simple_progress_status 100.5 = 100.5%float)
  /\ (simple_progress_status 100.5 =? 100)%float = (100 <=? 100.5)%float.
Proof. apply (drawn_status_is_clamped 100.5%float). reflexivity. Defined.

(** ** The main program *)

Lemma ask_user_id_blanks blanks rest :
  all_blank blanks ->
  ask_user_id (blanks ++ rest) =
  (complaints blanks ++ fst (ask_user_id rest), snd (ask_user_id rest)).
Proof.
  induction 1 as [|line blanks Hline _ IH]; cbn [app ask_user_id complaints flat_map].
  - destruct (ask_user_id rest); reflexivity.
  - rewrite Hline, IH. reflexivity.
Qed.

(** X17: in the interactive mode the program asks for the identifier until a
    line is more than white space, complaining about each line that is not, and
    takes that line stripped; it then asks for the threshold once: an answer of
    white space starts the run with the default threshold, and any other
    answer, a number included, ends the program with the AttributeError of the
    call [isnumber], which no str has. The threshold of the command line is not
    used. *)
Theorem interactive_threshold_is_the_default_or_a_crash :
  forall py_float args tty blanks line answer rest t,
    arg_interactive args = true ->
    request_timeout_of py_float (arg_request_timeout1 args) (arg_request_timeout2 args)
      = Some t ->
    all_blank blanks ->
    blank line = false ->
    main py_float args tty (blanks ++ line :: answer :: rest) =
    (Banner :: complaints blanks ++ [AskUserId; AskThreshold],
     if blank answer
     then Launch (strip line) (config_of args MEMBERS_THRESHOLD) t
     else Crash NoMethod_isnumber).
Proof.
  intros py_float args tty blanks line answer rest t Hi Ht Hb Hl.
  unfold main. rewrite Ht, Hi, (ask_user_id_blanks _ _ Hb).
  cbn [ask_user_id fst snd]. rewrite Hl. cbn [fst snd ask_threshold].
  destruct (blank answer); cbn [fst snd]; rewrite <- app_assoc; reflexivity.
Qed.

(** Witness of X17. *)
Lemma interactive_threshold_witness :
  main plain_float sample_arguments true [""; "  "; " eshmargunov "; "5"; "zzz"]%string =
  ([Banner; AskUserId; Invalid; AskUserId; Invalid; AskUserId; AskThreshold],
   Crash NoMethod_isnumber).
Proof.
  apply (interactive_threshold_is_the_default_or_a_crash plain_float sample_arguments true
           [""; "  "]%string " eshmargunov " "5" ["zzz"]%string (Both 7) eq_refl eq_refl).
  - repeat constructor.
  - reflexivity.
Defined.

(** X18: in the interactive mode the end of stdin ends the program with
    EOFError: while it asks for the identifier, when no line is more than white
    space, and when it asks for the threshold, when the identifier was the last
    line. *)
Theorem interactive_input_that_ends_early :
  forall py_float args tty blanks t,
    arg_interactive args = true ->
    request_timeout_of py_float (arg_request_timeout1 args) (arg_request_timeout2 args)
      = Some t ->
    all_blank blanks ->
    main py_float args tty blanks =
      (Banner :: complaints blanks ++ [AskUserId], Crash EOFError)
    /\ forall line, blank line = false ->
         main py_float args tty (blanks ++ [line]) =
         (Banner :: complaints blanks ++ [AskUserId; AskThreshold], Crash EOFError).
Proof.
  intros py_float args tty blanks t Hi Ht Hb. split.
  - unfold main. rewrite Ht, Hi.
    rewrite <- (app_nil_r blanks) at 1. rewrite (ask_user_id_blanks _ _ Hb).
    reflexivity.
  - intros line Hl. unfold main. rewrite Ht, Hi, (ask_user_id_blanks _ _ Hb).
    cbn [ask_user_id fst snd]. rewrite Hl. cbn [fst snd ask_threshold].
    rewrite <- app_assoc. reflexivity.
Qed.

(** Witness of X18. *)
Lemma interactive_input_witness :
  main plain_float sample_arguments false [""; "  "]%string =
  ([Banner; AskUserId; Invalid; AskUserId; Invalid; AskUserId], Crash EOFError).
Proof.
  apply (proj1 (interactive_input_that_ends_early plain_float sample_arguments false
                  [""; "  "]%string (Both 7) eq_refl eq_refl
                  ltac:(repeat constructor))).
Defined.

Lemma ask_user_id_answer lines events user_id rest :
  ask_user_id lines = (events, inr (user_id, rest)) -> user_id <> ""%string.
Proof.
  revert events. induction lines as [|line lines IH]; intros events; cbn [ask_user_id].
  - discriminate.
  - destruct (blank line) eqn:Hb.
    + destruct (ask_user_id lines) as [ev r]. intros [= _ ->]. eapply IH. reflexivity.
    + intros [= _ <- _]. unfold blank in Hb. destruct (strip line); discriminate.
Qed.

(** X19: whatever the command line and stdin hold, a run started by the main
    program has the language 'ru' and raises for a missing user, and takes
    everything else but the threshold from the command line; the threshold is
    that of the command line without the interactive mode and the default with
    it, where the identifier is never empty; without it the identifier is the
    given one, or 'a_medvedev_01' when none is given. *)
Theorem every_launch_keeps_lang_and_raise_nouser :
  forall py_float args tty lines user_id cfg t,
    snd (main py_float args tty lines) = Launch user_id cfg t ->
    lang cfg = DEFAULT_LANG /\ raise_nouser cfg = true
    /\ cfg = config_of args (members_threshold cfg)
    /\ (arg_interactive args = true ->
        members_threshold cfg = MEMBERS_THRESHOLD /\ user_id <> ""%string)
    /\ (arg_interactive args = false ->
        members_threshold cfg = arg_members_threshold args
        /\ user_id = match arg_user_id args with
                     | Some given => given
                     | None => "a_medvedev_01"%string
                     end).
Proof.
  intros py_float args tty lines user_id cfg t. unfold main.
  destruct (request_timeout_of _ _ _) as [t'|]; [|discriminate].
  destruct (arg_interactive args) eqn:Hi.
  - destruct (ask_user_id lines) as [events [e|[uid rest]]] eqn:Hu; [discriminate|].
    destruct (ask_threshold rest) as [events2 [e|threshold]] eqn:Hth; [discriminate|].
    cbn [snd]. intros [= <- <- <-].
    assert (threshold = MEMBERS_THRESHOLD) as ->.
    { unfold ask_threshold in Hth. destruct rest as [|answer rest']; [discriminate|].
      destruct (blank answer); [|discriminate]. now injection Hth as _ <-. }
    repeat split; try discriminate.
    eapply ask_user_id_answer; eassumption.
  - destruct (arg_user_id args) as [given|]; cbn [snd]; intros [= <- <- <-];
      repeat split; discriminate.
Qed.

(** Witness of X19. *)
Lemma every_launch_witness :
  lang (config_of sample_arguments MEMBERS_THRESHOLD) = DEFAULT_LANG
  /\ raise_nouser (config_of sample_arguments MEMBERS_THRESHOLD) = true.
Proof.
  destruct (every_launch_keeps_lang_and_raise_nouser plain_float sample_arguments true
              [" eshmargunov "; ""]%string "eshmargunov"
              (config_of sample_arguments MEMBERS_THRESHOLD) (Both 7) eq_refl)
    as (Hlang & Hraise & _).
  split; [exact Hlang|exact Hraise].
Defined.
